(** * Lane tracker of [p2.py]: a shallow embedding and its properties

    The development follows the tracker core of [src/p2.py]: the [Line]
    class (curve construction, [isValid], [getLowestLinePoint]),
    [measure_offset], [getLastValidLines], [find_lane_pixels] and the
    history handling of [process_frame].

    Numbers.  Python floats are modelled by exact rationals ([Q]); the one
    place where the source divides by a quantity that may be zero (the
    radius of curvature) produces an extended value ([fval]), as numpy's
    float division does.  Two numerical routines that the program takes
    from its libraries are an interface ([Numerics]): the least-squares
    solver of numpy's degree-2 [polyfit] and the float power [x ** 1.5].
    The failures of [polyfit] are part of the model ([np_polyfit]): it
    rejects empty and unequal-length arguments, and its solver fails when
    every abscissa is zero. *)

From Stdlib Require Import ZArith QArith Qabs Qround Qreduction List Bool Lia Lqa.
Import ListNotations.

Open Scope Q_scope.

(** ** Exceptions and results *)

Inductive exn : Type :=
| AttributeError   (* an attribute that was never assigned is read      *)
| IndexError       (* a list is indexed out of range                    *)
| ValueError       (* numpy reduction of an empty array, int(nan)       *)
| TypeError        (* polyfit of empty or unequal-length arrays         *)
| OverflowError    (* int(inf)                                          *)
| LinAlgError.     (* polyfit: the least-squares solver does not converge *)

Inductive result (A : Type) : Type :=
| Ok (a : A)
| Raise (e : exn).

Arguments Ok {A} a.
Arguments Raise {A} e.

Definition bind {A B : Type} (m : result A) (k : A -> result B) : result B :=
  match m with
  | Ok a => k a
  | Raise e => Raise e
  end.

Notation "x <- m ;; k" := (bind m (fun x => k))
  (at level 61, m at next level, right associativity).

(** Reading an attribute that is only assigned on some paths. *)
Definition attr {A : Type} (field : option A) : result A :=
  match field with
  | Some a => Ok a
  | None => Raise AttributeError
  end.

(** Python indexing [l[i]]: a negative index counts from the end. *)
Definition py_index {A : Type} (l : list A) (i : Z) : result A :=
  let n := Z.of_nat (length l) in
  let j := if (i <? 0)%Z then (i + n)%Z else i in
  if ((0 <=? j) && (j <? n))%Z
  then match nth_error l (Z.to_nat j) with
       | Some a => Ok a
       | None => Raise IndexError
       end
  else Raise IndexError.

(** ** Numbers *)

Definition Qlt_bool (x y : Q) : bool := negb (Qle_bool y x).

(** Extended values: what a float division can produce. *)
Inductive fval : Type :=
| Fin (q : Q)
| PInf
| NInf
| NaN.

(** numpy's float division: a zero divisor gives an infinity or nan. *)
Definition fdiv (n d : Q) : fval :=
  if Qeq_bool d 0
  then match Qcompare n 0 with
       | Gt => PInf
       | Lt => NInf
       | Eq => NaN
       end
  else Fin (n / d).

Definition fadd (x y : fval) : fval :=
  match x, y with
  | NaN, _ | _, NaN => NaN
  | PInf, NInf | NInf, PInf => NaN
  | PInf, _ | _, PInf => PInf
  | NInf, _ | _, NInf => NInf
  | Fin a, Fin b => Fin (a + b)
  end.

(** [np.max] and [np.min] of a one-dimensional array. *)
Definition np_max (l : list Q) : result Q :=
  match l with
  | [] => Raise ValueError
  | x :: r => Ok (fold_left (fun m y => if Qlt_bool m y then y else m) r x)
  end.

Definition np_min (l : list Q) : result Q :=
  match l with
  | [] => Raise ValueError
  | x :: r => Ok (fold_left (fun m y => if Qlt_bool y m then y else m) r x)
  end.

(** [np.linspace(0, height-1, height)]: the values 0, 1, ..., height-1. *)
Definition linspace (height : nat) : list Q :=
  map (fun i => inject_Z (Z.of_nat i)) (seq 0 height).

(** The three coefficients of a degree-2 fit, highest degree first, as
    [np.polyfit(_, _, 2)] returns them: [p0] is index 0 of the array. *)
Record poly : Type := Poly { p0 : Q; p1 : Q; p2 : Q }.

Definition poly_len (p : poly) : nat := length [p0 p; p1 p; p2 p].

(** [c[0] * y ** 2 + c[1] * y + c[2]] *)
Definition polyval (c : poly) (y : Q) : Q :=
  (p0 c * y ^ 2) + (p1 c * y) + p2 c.

(** [2 * c[0] * y + c[1]] *)
Definition slope_at (c : poly) (y : Q) : Q :=
  (2 * p0 c * y) + p1 c.

(** The numerical routines of the libraries. *)
Class Numerics : Type := {
  (** the least-squares solver behind [np.polyfit(x, y, 2)] *)
  polyfit : list Q -> list Q -> poly;
  (** [v ** float(3/2)] *)
  pow15 : Q -> Q
}.

(** [np.polyfit(x, y, 2)] with its failures.  [x] must not be empty and
    [y] must have the length of [x] ([TypeError]).  Then polyfit divides
    each column (x^2, x, 1) of its matrix by the column's norm before it
    solves: when every abscissa is zero the first two norms are zero, the
    quotients are nan, and the solver raises [LinAlgError]. *)
Definition np_polyfit {N : Numerics} (x y : list Q) : result poly :=
  if (length x =? 0)%nat then Raise TypeError
  else if negb (length x =? length y)%nat then Raise TypeError
  else if forallb (fun v => Qeq_bool v 0) x then Raise LinAlgError
  else Ok (polyfit x y).

(** ** Constants *)

Definition METERS_PER_PIXEL_X : Q := 37 # 7000.      (* 3.7/700 *)
Definition METERS_PER_PIXEL_Y : Q := 30 # 720.       (* 30/720  *)
Definition AVERAGE_OVER_X_FRAMES : nat := 7.
Definition MIN_PIXELS_FOR_VALID_LINE : nat := 3000.
Definition SLOPE_TOLERANCE : Q := 12 # 10.           (* 1.2 *)

(** ** The Line class *)

Inductive Side : Type := LEFT | RIGHT.

(** The attributes assigned only when a fit is made ([line_coefficients],
    [curvature] and the three slopes) are optional: absent on a line built
    from an empty pixel set. *)
Record Line : Type := mkLine {
  fitx : list Q;
  fity : list Q;
  lane_pixels_x : list Z;
  lane_pixels_y : list Z;
  detected : bool;
  line_coefficients : option poly;
  curvature : option fval;
  upper_slope : option Q;
  mid_slope : option Q;
  lower_slope : option Q
}.

Definition set_detected (l : Line) (d : bool) : Line :=
  mkLine (fitx l) (fity l) (lane_pixels_x l) (lane_pixels_y l) d
         (line_coefficients l) (curvature l)
         (upper_slope l) (mid_slope l) (lower_slope l).

Section Tracker.

Context {N : Numerics}.

(** The radius of curvature of lines 102-114: the sampled points are scaled
    to world space, refitted, and the radius is taken at the largest y. *)
Definition world_curvature (sample_y sample_x : list Q) : result fval :=
  let fity := map (fun y => y * METERS_PER_PIXEL_Y) sample_y in
  let fitx := map (fun x => x * METERS_PER_PIXEL_X) sample_x in
  maxy <- np_max fity ;;
  world_poly <- np_polyfit fity fitx ;;
  Ok (fdiv (pow15 (1 + ((2 * p0 world_poly * maxy) + p1 world_poly) ^ 2))
           (Qabs (2 * p0 world_poly))).

(** [Line.__init__] *)
Definition Line_init (x_pixels y_pixels : list Z) (height : nat)
           (detected : bool) : result Line :=
  if (0 <? length y_pixels)%nat && (0 <? length x_pixels)%nat then
    coeffs <-
      np_polyfit (map inject_Z y_pixels) (map inject_Z x_pixels) ;;
    let fity := linspace height in
    let fitx := map (polyval coeffs) fity in
    curv <- world_curvature fity fitx ;;
    y_top <- py_index fity 0 ;;
    y_mid <- py_index fity (Z.of_nat (height / 2)) ;;
    y_low <- py_index fity (Z.of_nat height - 1) ;;
    Ok (mkLine fitx fity x_pixels y_pixels detected
               (Some coeffs) (Some curv)
               (Some (slope_at coeffs y_top))
               (Some (slope_at coeffs y_mid))
               (Some (slope_at coeffs y_low)))
  else
    Ok (mkLine [] [] x_pixels y_pixels false None None None None None).

End Tracker.

(** [Line.isValid].  The conjunction short-circuits from left to right.
    In the last three conjuncts the source applies [abs] to the outcome of
    the comparison ([abs(self.upper_slope < SLOPE_TOLERANCE)]); [abs] of a
    boolean keeps its truth value, so each conjunct is the comparison. *)
Definition isValid (l : Line) : result bool :=
  if negb (detected l) then Ok false else
  coeffs <- attr (line_coefficients l) ;;
  if negb (poly_len coeffs =? 3)%nat then Ok false else
  if negb (MIN_PIXELS_FOR_VALID_LINE <? length (lane_pixels_x l))%nat
  then Ok false else
  upper <- attr (upper_slope l) ;;
  lower <- attr (lower_slope l) ;;
  if negb (Qlt_bool (Qabs (upper - lower)) (12 # 10)) then Ok false else
  if negb (Qlt_bool upper SLOPE_TOLERANCE) then Ok false else
  mid <- attr (mid_slope l) ;;
  if negb (Qlt_bool mid SLOPE_TOLERANCE) then Ok false else
  Ok (Qlt_bool lower SLOPE_TOLERANCE).

(** [Line.getLowestLinePoint] *)
Definition getLowestLinePoint (l : Line) : result Q :=
  y <- np_max (fity l) ;;
  coeffs <- attr (line_coefficients l) ;;
  Ok (polyval coeffs y).

(** Python's [round(v, 2)]: to the nearest multiple of 1/100, a tie going
    to the even one. *)
Definition round_half_even (q : Q) : Z :=
  let f := Qfloor q in
  let r := q - inject_Z f in
  match Qcompare r (1 # 2) with
  | Lt => f
  | Gt => (f + 1)%Z
  | Eq => if Z.even f then f else (f + 1)%Z
  end.

Definition round2 (q : Q) : Q := inject_Z (round_half_even (q * 100)) / 100.

(** [measure_offset] *)
Definition measure_offset (left_line right_line : Line) (width : nat)
  : result Q :=
  rightmax <- getLowestLinePoint right_line ;;
  leftmax <- getLowestLinePoint left_line ;;
  let lane_center := (rightmax + leftmax) / 2 in
  let center_screen := inject_Z (Z.of_nat width) / 2 in
  Ok (round2 ((center_screen - lane_center) * METERS_PER_PIXEL_X)).

(** ** Frames and the tracker state *)

(** A [Frame] enters [FRAMES] only after both of its lines have been
    assigned (lines 564-565), so a recorded frame holds two lines. *)
Record Frame : Type := mkFrame {
  frame_index : Z;
  left_line : Line;
  right_line : Line
}.

(** The module-level variables [FRAMES] and [frame_number]. *)
Record state : Type := mkState {
  FRAMES : list Frame;
  frame_number : Z
}.

Definition initial_state : state := mkState [] (-1).

Definition side_line (side : Side) (f : Frame) : Line :=
  match side with
  | LEFT => left_line f
  | RIGHT => right_line f
  end.

(** The loop of [getLastValidLines].  [n] is [frame_num + 1]: the loop runs
    while [frame_num >= 0 and count > 0], and [frame_num] decreases by one
    in every iteration. *)
Fixpoint walk_back (frames : list Frame) (side : Side) (n count : nat)
         (valid_lines : list Line) : result (list Line) :=
  match n with
  | O => Ok valid_lines
  | S frame_num =>
      match count with
      | O => Ok valid_lines
      | S count' =>
          prev_frame <- py_index frames (Z.of_nat frame_num) ;;
          v <- isValid (side_line side prev_frame) ;;
          if v
          then walk_back frames side frame_num count'
                         (valid_lines ++ [side_line side prev_frame])
          else walk_back frames side frame_num count valid_lines
      end
  end.

(** [getLastValidLines] *)
Definition getLastValidLines (st : state) (side : Side) (count : nat)
  : result (list Line) :=
  walk_back (FRAMES st) side (Z.to_nat (frame_number st + 1)) count [].

(** ** Images and the two pixel searches *)

(** A single-channel image of shape [(img_height, img_width)];
    [pixel y x] is its value in row [y], column [x]. *)
Record image : Type := mkImage {
  img_height : nat;
  img_width : nat;
  pixel : nat -> nat -> Q
}.

(** [binary_warped.nonzero()]: the coordinates [(y, x)] of the nonzero
    pixels, in row-major order.  The arrays [nonzeroy] and [nonzerox] are
    the two components of this list. *)
Definition nonzero (img : image) : list (Z * Z) :=
  flat_map
    (fun y =>
       flat_map
         (fun x => if Qeq_bool (pixel img y x) 0 then []
                   else [(Z.of_nat y, Z.of_nat x)])
         (seq 0 (img_width img)))
    (seq 0 (img_height img)).

(** [np.sum(binary_warped[height//2:, :], axis=0)] *)
Definition histogram (img : image) : list Q :=
  let h := img_height img in
  map (fun x =>
         fold_left Qplus
                   (map (fun y => pixel img y x) (seq (h / 2) (h - h / 2))) 0)
      (seq 0 (img_width img)).

Fixpoint argmax_from (l : list Q) (i : nat) (best : Q) (best_i : nat) : nat :=
  match l with
  | [] => best_i
  | x :: r => if Qlt_bool best x
              then argmax_from r (S i) x i
              else argmax_from r (S i) best best_i
  end.

(** [np.argmax]: the first index of the largest value. *)
Definition np_argmax (l : list Q) : result nat :=
  match l with
  | [] => Raise ValueError
  | x :: r => Ok (argmax_from r 1 x 0)
  end.

Definition nwindows : nat := 9.
Definition window_margin : Z := 75.
Definition poly_margin : Q := 50.
Definition minpix : nat := 75.

Definition in_window (win_y_low win_y_high win_x_low win_x_high : Z)
           (p : Z * Z) : bool :=
  ((win_y_low <=? fst p) && (fst p <? win_y_high) &&
   (win_x_low <=? snd p) && (snd p <? win_x_high))%Z.

(** [np.int(np.mean(a))] of integers: the mean, truncated. *)
Definition int_mean (a : list Z) : Z :=
  Z.quot (fold_left Z.add a 0%Z) (Z.of_nat (length a)).

(** The loop over the windows (lines 378-403).  The pixels selected by a
    window are kept as coordinate pairs; the source keeps their indices in
    [nonzerox]/[nonzeroy] and looks them up after the loop. *)
Fixpoint slide (nz : list (Z * Z)) (height window_height : Z)
         (windows : list nat) (leftx_current rightx_current : Z)
         (left_lane right_lane : list (Z * Z))
  : list (Z * Z) * list (Z * Z) :=
  match windows with
  | [] => (left_lane, right_lane)
  | window :: rest =>
      let win_y_low := (height - (Z.of_nat window + 1) * window_height)%Z in
      let win_y_high := (height - Z.of_nat window * window_height)%Z in
      let win_xleft_low := (leftx_current - window_margin)%Z in
      let win_xleft_high := (leftx_current + window_margin)%Z in
      let win_xright_low := (rightx_current - window_margin)%Z in
      let win_xright_high := (rightx_current + window_margin)%Z in
      let good_left :=
        filter (in_window win_y_low win_y_high win_xleft_low win_xleft_high)
               nz in
      let good_right :=
        filter (in_window win_y_low win_y_high win_xright_low win_xright_high)
               nz in
      let leftx_current' :=
        if (minpix <=? length good_left)%nat
        then int_mean (map snd good_left) else leftx_current in
      let rightx_current' :=
        if (minpix <=? length good_right)%nat
        then int_mean (map snd good_right) else rightx_current in
      slide nz height window_height rest leftx_current' rightx_current'
            (left_lane ++ good_left) (right_lane ++ good_right)
  end.

(** The cold start: histogram peaks, then sliding windows (lines 363-407). *)
Definition sliding_window_search (img : image)
  : result (list (Z * Z) * list (Z * Z)) :=
  let hist := histogram img in
  let midpoint := (length hist / 2)%nat in
  leftx_base <- np_argmax (firstn midpoint hist) ;;
  right_peak <- np_argmax (skipn midpoint hist) ;;
  let rightx_base := (right_peak + midpoint)%nat in
  let window_height := (img_height img / nwindows)%nat in
  Ok (slide (nonzero img) (Z.of_nat (img_height img)) (Z.of_nat window_height)
            (seq 0 nwindows)
            (Z.of_nat leftx_base) (Z.of_nat rightx_base) [] []).

Definition near_poly (c : poly) (p : Z * Z) : bool :=
  let y := inject_Z (fst p) in
  let x := inject_Z (snd p) in
  Qlt_bool (polyval c y - poly_margin) x &&
  Qlt_bool x (polyval c y + poly_margin).

(** The warm start: the nonzero pixels next to the previous frame's
    polynomials (lines 413-418). *)
Definition poly_search (img : image) (left_prev right_prev : Line)
  : result (list (Z * Z) * list (Z * Z)) :=
  left_poly <- attr (line_coefficients left_prev) ;;
  right_poly <- attr (line_coefficients right_prev) ;;
  Ok (filter (near_poly left_poly) (nonzero img),
      filter (near_poly right_poly) (nonzero img)).

(** [line is None or not line.isValid()] *)
Definition missing_or_invalid (line : option Line) : result bool :=
  match line with
  | None => Ok true
  | Some l => v <- isValid l ;; Ok (negb v)
  end.

(** The test of line 362. *)
Definition cold_start (left_prev right_prev : option Line) : result bool :=
  a <- missing_or_invalid left_prev ;;
  if a then Ok true else missing_or_invalid right_prev.

(** The choice between the two searches (lines 362-418). *)
Definition search (img : image) (left_prev right_prev : option Line)
  : result (list (Z * Z) * list (Z * Z)) :=
  cold <- cold_start left_prev right_prev ;;
  if cold then sliding_window_search img
  else match left_prev, right_prev with
       | Some l, Some r => poly_search img l r
       | _, _ => Raise AttributeError
       end.

(** [right_fitx - left_fitx] of two arrays of one length. *)
Definition np_sub (a b : list Q) : result (list Q) :=
  if (length a =? length b)%nat
  then Ok (map (fun ab => fst ab - snd ab) (combine a b))
  else Raise ValueError.

(** [np.min(np.absolute(right_fitx - left_fitx))] *)
Definition min_gap (l r : Line) : result Q :=
  d <- np_sub (fitx r) (fitx l) ;;
  np_min (map Qabs d).

(** Lines 436-443: two valid lines that come closer than 300 pixels are
    both marked as not detected. *)
Definition cross_validate (new_left new_right : Line) : result (Line * Line) :=
  vl <- isValid new_left ;;
  vr <- (if vl then isValid new_right else Ok false) ;;
  too_close <- (if vl && vr
                then g <- min_gap new_left new_right ;; Ok (Qlt_bool g 300)
                else Ok false) ;;
  if too_close
  then Ok (set_detected new_left false, set_detected new_right false)
  else Ok (new_left, new_right).

Section Frames.

Context {N : Numerics}.

(** Lines 421-443: the two new lines, then their cross-validation. *)
Definition fit_and_validate (left_px right_px : list (Z * Z)) (height : nat)
  : result (Line * Line) :=
  new_left <- Line_init (map snd left_px) (map fst left_px) height true ;;
  new_right <- Line_init (map snd right_px) (map fst right_px) height true ;;
  cross_validate new_left new_right.

(** [find_lane_pixels] *)
Definition find_lane_pixels (binary_warped : image)
           (left_prev right_prev : option Line) : result (Line * Line) :=
  px <- search binary_warped left_prev right_prev ;;
  fit_and_validate (fst px) (snd px) (img_height binary_warped).

End Frames.

(** ** Averages and the frame callback *)

Fixpoint mapM {A B : Type} (f : A -> result B) (l : list A) : result (list B) :=
  match l with
  | [] => Ok []
  | a :: r => b <- f a ;; bs <- mapM f r ;; Ok (b :: bs)
  end.

Definition Qsum (l : list Q) : Q := fold_left Qplus l 0.

(** [np.mean(rows, axis=0)] of rows of three coefficients.  The mean of no
    rows is nan: [None]. *)
Definition np_mean_axis0 (rows : list poly) : option poly :=
  match rows with
  | [] => None
  | _ =>
      let n := inject_Z (Z.of_nat (length rows)) in
      Some (Poly (Qsum (map p0 rows) / n)
                 (Qsum (map p1 rows) / n)
                 (Qsum (map p2 rows) / n))
  end.

(** [np.mean] of a list of float values. *)
Definition np_mean (l : list fval) : fval :=
  match l with
  | [] => NaN
  | _ =>
      match fold_left fadd l (Fin 0) with
      | Fin s => Fin (s / inject_Z (Z.of_nat (length l)))
      | v => v
      end
  end.

(** [int(v)]: truncation; an infinity or nan cannot be converted. *)
Definition py_int (v : fval) : result Z :=
  match v with
  | Fin q => Ok (Z.quot (Qnum q) (Zpos (Qden q)))
  | PInf | NInf => Raise OverflowError
  | NaN => Raise ValueError
  end.

(** What a frame contributes to the rendered output: the two averaged
    polynomials that [fillLane] shades between, and the two numbers that
    are written on the image.  The rendering itself (OpenCV) is not
    modelled. *)
Record output : Type := mkOutput {
  avg_left : option poly;
  avg_right : option poly;
  average_line_curvature : Z;
  offset : Q
}.

(** [frame.x_line] if it is valid, and otherwise
    [getLastValidLines(side, 1)[0]] (lines 570-576). *)
Definition current_line (st : state) (side : Side) (line : Line)
  : result Line :=
  v <- isValid line ;;
  if negb v
  then ls <- getLastValidLines st side 1 ;; py_index ls 0
  else Ok line.

(** Lines 582-591 for one side: the mean of the coefficients of the last
    [AVERAGE_OVER_X_FRAMES] valid lines. *)
Definition average_coeffs (st : state) (side : Side) : result (option poly) :=
  valid_lines <- getLastValidLines st side AVERAGE_OVER_X_FRAMES ;;
  coeffs <- mapM (fun l => attr (line_coefficients l)) valid_lines ;;
  Ok (np_mean_axis0 coeffs).

(** Lines 566-617, after the new frame has been appended. *)
Definition report (st : state) (frame : Frame) (width : nat) : result output :=
  current_left_line <- current_line st LEFT (left_line frame) ;;
  current_right_line <- current_line st RIGHT (right_line frame) ;;
  valid_left_lines <- getLastValidLines st LEFT AVERAGE_OVER_X_FRAMES ;;
  valid_right_lines <- getLastValidLines st RIGHT AVERAGE_OVER_X_FRAMES ;;
  avg_left_coeffs <-
    mapM (fun l => attr (line_coefficients l)) valid_left_lines ;;
  avg_right_coeffs <-
    mapM (fun l => attr (line_coefficients l)) valid_right_lines ;;
  avg_curve <-
    mapM (fun l => attr (curvature l)) (valid_left_lines ++ valid_right_lines) ;;
  curv <- py_int (np_mean avg_curve) ;;
  off <- measure_offset current_left_line current_right_line width ;;
  Ok (mkOutput (np_mean_axis0 avg_left_coeffs) (np_mean_axis0 avg_right_coeffs)
               curv off).

Section Callback.

Context {N : Numerics}.

(** Lines 556-564: the lines of the previous frame, if there is one, and
    the search for the new lines. *)
Definition detect (st : state) (number : Z) (warped : image)
  : result (Line * Line) :=
  prev <- (if (0 <? number)%Z
           then f <- py_index (FRAMES st) (number - 1) ;;
                Ok (Some (left_line f), Some (right_line f))
           else Ok (None, None)) ;;
  find_lane_pixels warped (fst prev) (snd prev).

(** [process_frame], from the warped binary image on.  The state after the
    call is returned also when the call raises: the module-level variables
    keep what was assigned before the exception. *)
Definition process_frame (st : state) (warped : image)
  : state * result output :=
  let number := (frame_number st + 1)%Z in
  match detect st number warped with
  | Raise e => (mkState (FRAMES st) number, Raise e)
  | Ok (l, r) =>
      let frame := mkFrame number l r in
      let st' := mkState (FRAMES st ++ [frame]) number in
      (st', report st' frame (img_width warped))
  end.

End Callback.

(** ** An instance of the numerical routines

    [lstsq2] is the least-squares parabola in exact arithmetic.  When the
    abscissae take at least three values the normal equations have one
    solution, given by Cramer's rule.  When they take one or two values
    the least-squares parabolas are many; numpy's polyfit, which scales
    the columns x^2, x, 1 by their norms, returns the one of least norm in
    the scaled coordinates, that is the one that makes
    s4 a^2 + s2 b^2 + s0 c^2 least (s_k the sum of the x^k), and so does
    [lstsq2] ([min_norm2]).  Floats round: where the exact leading
    coefficient is 0 because the ordinates lie on a straight line that is
    not the axis, the float one may be a tiny number instead; on
    ordinates that are all zero the float solver returns zeros as
    well. *)

Definition Qsum_red (l : list Q) : Q :=
  fold_left (fun s v => Qred (s + v)) l 0.

Definition det3 (a b c d e f g h i : Q) : Q :=
  Qred (a * (e * i - f * h) - b * (d * i - f * g) + c * (d * h - e * g)).

(** The sums of the normal equations: of [x^k], and of [x^k * y]. *)
Definition moment (k : Z) (t : list Q) : Q :=
  Qsum_red (map (fun x => x ^ k) t).

Definition cross (k : Z) (t v : list Q) : Q :=
  Qsum_red (map (fun xy => fst xy ^ k * snd xy) (combine t v)).

(** The determinant of the normal equations. *)
Definition gram_det (t : list Q) : Q :=
  det3 (moment 4 t) (moment 3 t) (moment 2 t)
       (moment 3 t) (moment 2 t) (moment 1 t)
       (moment 2 t) (moment 1 t) (moment 0 t).

(** The mean of the ordinates whose abscissa is [x]. *)
Definition mean_at (x : Q) (t v : list Q) : Q :=
  let sel := filter (fun xy => Qeq_bool (fst xy) x) (combine t v) in
  Qred (Qsum_red (map snd sel) / inject_Z (Z.of_nat (length sel))).

(** An abscissa that differs from the first one, if there is one. *)
Definition second_abscissa (t : list Q) : option Q :=
  match t with
  | [] => None
  | x1 :: r => find (fun x => negb (Qeq_bool x x1)) r
  end.

(** The least-squares parabola of least scaled norm, for abscissae that
    take one value x1 (the parabolas through (x1, m1), m1 the mean
    ordinate) or two values x1, x2 (the parabolas through (x1, m1) and
    (x2, m2): the straight line through the two points plus a multiple of
    (x - x1)(x - x2)). *)
Definition min_norm2 (t v : list Q) : poly :=
  let s0 := moment 0 t in
  let s2 := moment 2 t in
  let s4 := moment 4 t in
  match t with
  | [] => Poly 0 0 0
  | x1 :: _ =>
      let m1 := mean_at x1 t v in
      match second_abscissa t with
      | None =>
          Poly (Qred (m1 / (3 * x1 ^ 2))) (Qred (m1 / (3 * x1)))
               (Qred (m1 / 3))
      | Some x2 =>
          let m2 := mean_at x2 t v in
          let b := (m2 - m1) / (x2 - x1) in
          let c := m1 - b * x1 in
          let n1 := - (x1 + x2) in
          let n0 := x1 * x2 in
          let k := - (s2 * b * n1 + s0 * c * n0)
                   / (s4 + s2 * n1 ^ 2 + s0 * n0 ^ 2) in
          Poly (Qred k) (Qred (b + k * n1)) (Qred (c + k * n0))
      end
  end.

Definition lstsq2 (t v : list Q) : poly :=
  let s0 := moment 0 t in
  let s1 := moment 1 t in
  let s2 := moment 2 t in
  let s3 := moment 3 t in
  let s4 := moment 4 t in
  let r0 := cross 0 t v in
  let r1 := cross 1 t v in
  let r2 := cross 2 t v in
  let d := gram_det t in
  if Qeq_bool d 0 then min_norm2 t v
  else Poly (Qred (det3 r2 s3 s2 r1 s2 s1 r0 s1 s0 / d))
            (Qred (det3 s4 r2 s2 s3 r1 s1 s2 r0 s0 / d))
            (Qred (det3 s4 s3 r2 s3 s2 r1 s2 s1 r0 / d)).

(** [v ** 1.5] to twelve decimal places: [v * sqrt v]. *)
Definition sqrt12 (v : Q) : Q :=
  Z.sqrt (Qnum v * 10 ^ 24 / Zpos (Qden v)) # 10 ^ 12.

Definition pow15_approx (v : Q) : Q := Qred (v * sqrt12 v).

Definition exact_numerics : Numerics :=
  {| polyfit := lstsq2; pow15 := pow15_approx |}.

(** ** Predicates and reference definitions used in the statements *)

Definition is_some {A : Type} (o : option A) : bool :=
  match o with
  | Some _ => true
  | None => false
  end.

(** The attributes of the fit are all present. *)
Definition fitted (l : Line) : bool :=
  is_some (line_coefficients l) && is_some (curvature l) &&
  is_some (upper_slope l) && is_some (mid_slope l) && is_some (lower_slope l).

(** What every line of the program satisfies: a line with [detected] set
    carries a fit. *)
Definition wf_line (l : Line) : bool := implb (detected l) (fitted l).

Definition wf_frame (f : Frame) : bool :=
  wf_line (left_line f) && wf_line (right_line f).

(** The history and the frame counter agree, and the recorded lines are
    well formed. *)
Definition state_ok (st : state) : bool :=
  (frame_number st =? Z.of_nat (length (FRAMES st)) - 1)%Z &&
  forallb wf_frame (FRAMES st).

(** The states of a run: [process_frame] applied frame after frame, as
    long as it returns (an exception ends the run). *)
Inductive reachable {N : Numerics} : state -> Prop :=
| reach_init : reachable initial_state
| reach_step st warped st' out :
    reachable st ->
    process_frame st warped = (st', Ok out) ->
    reachable st'.

(** [isValid] as a truth value: it returned [True]. *)
Definition valid_b (l : Line) : bool :=
  match isValid l with
  | Ok true => true
  | _ => false
  end.

(** The valid lines of one side of the history, the most recent first. *)
Definition valid_history (st : state) (side : Side) : list Line :=
  filter valid_b (rev (map (side_line side) (FRAMES st))).

(** The last recorded frame, if any. *)
Definition previous_frame (st : state) : option Frame :=
  match rev (FRAMES st) with
  | [] => None
  | f :: _ => Some f
  end.

(** Both lines of the previous frame exist and are valid. *)
Definition warm_start (prev : option Frame) : bool :=
  match prev with
  | Some f => valid_b (left_line f) && valid_b (right_line f)
  | None => false
  end.

(** ** Concrete data for the examples *)

(** A band of 20 pixels per row along x = 1200 - 5 y, rows 0 to 239. *)
Definition steep_band : list (Z * Z) :=
  flat_map
    (fun y => map (fun k => (Z.of_nat y, (1200 - 5 * Z.of_nat y + Z.of_nat k)%Z))
                  (seq 0 20))
    (seq 0 240).

(** A vertical band of [w] pixels per row starting at column [x0], rows 0
    to [rows - 1]. *)
Definition vertical_band (x0 : Z) (w rows : nat) : list (Z * Z) :=
  flat_map
    (fun y => map (fun k => (Z.of_nat y, (x0 + Z.of_nat k)%Z)) (seq 0 w))
    (seq 0 rows).

(** Three pixels in a column. *)
Definition column (x : Z) : list (Z * Z) :=
  [(0, x); (1, x); (2, x)]%Z.

(** An image without a nonzero pixel. *)
Definition blank (height width : nat) : image :=
  mkImage height width (fun _ _ => 0).

(** The coefficients of a line that carries a fit. *)
Definition coeffs_of (l : Line) : poly :=
  match line_coefficients l with
  | Some c => c
  | None => Poly 0 0 0
  end.

(** The pixels of a vertical lane marking: 40 columns from [x0], rows 0 to
    89. *)
Definition lane_band (x0 : Z) : list (Z * Z) := vertical_band x0 40 90.

(** The line that the constructor builds from [lane_band x0] in an image of
    height 90, with the exact fit: x = x0 + 19.5 at every y.  The exact
    leading coefficient is 0 and the curvature the infinity of a division
    by zero; with floats it may be a huge number instead. *)
Definition flat_line (x0 : Z) (d : bool) : Line :=
  let c := Poly 0 0 ((2 * x0 + 39) # 2) in
  mkLine (map (polyval c) (linspace 90)) (linspace 90)
         (map snd (lane_band x0)) (map fst (lane_band x0)) d
         (Some c) (Some PInf) (Some 0) (Some 0) (Some 0).

(** A line as the constructor leaves it for an empty pixel set. *)
Definition empty_line : Line :=
  mkLine [] [] [] [] false None None None None None.

(** A history of nine frames, the oldest first.  The left line is valid in
    all of them but the fourth; the right line in the first only. *)
Definition sample_history : list Frame :=
  [ mkFrame 0 (flat_line 100 true) (flat_line 500 true);
    mkFrame 1 (flat_line 101 true) empty_line;
    mkFrame 2 (flat_line 102 true) (flat_line 502 false);
    mkFrame 3 empty_line empty_line;
    mkFrame 4 (flat_line 104 true) empty_line;
    mkFrame 5 (flat_line 105 true) empty_line;
    mkFrame 6 (flat_line 106 true) empty_line;
    mkFrame 7 (flat_line 107 true) empty_line;
    mkFrame 8 (flat_line 108 true) empty_line ].

Definition sample_state : state := mkState sample_history 8.

(** A state after one frame in which both lines were valid. *)
Definition warm_state : state :=
  mkState [mkFrame 0 (flat_line 10 true) (flat_line 330 true)] 0.

(** A 90 x 380 image with two vertical markings, 40 pixels wide, from
    columns 10 and 330. *)
Definition lanes_image : image :=
  mkImage 90 380
          (fun _ x => if ((10 <=? x) && (x <? 50) ||
                          (330 <=? x) && (x <? 370))%nat
                      then 1 else 0).

(** The line that the constructor builds from the three pixels of
    [column x] in an image of height 3, with the exact fit (leading
    coefficient 0, curvature as for [flat_line]). *)
Definition column_line (x : Z) : Line :=
  let c := Poly 0 0 (inject_Z x) in
  mkLine (map (polyval c) (linspace 3)) (linspace 3)
         (map snd (column x)) (map fst (column x)) true
         (Some c) (Some PInf) (Some 0) (Some 0) (Some 0).

(** ** Further predicates and data *)

(** The curvature of a line that carries a fit. *)
Definition curv_of (l : Line) : fval :=
  match curvature l with
  | Some v => v
  | None => NaN
  end.

(** A line with coefficients has at least one sample row. *)
Definition sampled (l : Line) : bool :=
  implb (is_some (line_coefficients l)) (0 <? length (fity l))%nat.

Definition sampled_frame (f : Frame) : bool :=
  sampled (left_line f) && sampled (right_line f).

(** The invariant of a run, with the sample rows and the frame numbers:
    the k-th record carries the number k. *)
Definition state_good (st : state) : bool :=
  state_ok st && forallb sampled_frame (FRAMES st).

Definition numbered (frames : list Frame) : Prop :=
  map frame_index frames = map Z.of_nat (seq 0 (length frames)).

(** A line with three pixels, detected, with its fit. *)
Definition short_line : Line := column_line 300.

(** A 9 x 4 image with one nonzero pixel, in the last row. *)
Definition tiny_image : image :=
  mkImage 9 4 (fun y x => if ((y =? 8) && (x =? 1))%nat then 1 else 0).

(** A 90 x 400 image with two curved markings, 40 pixels wide, that start
    at columns 10 and 330 and bend to the right by y^2/300 pixels. *)
Definition curved_image : image :=
  mkImage 90 400
          (fun y x =>
             let s := (N.of_nat y * N.of_nat y / 300)%N in
             let c := N.of_nat x in
             if ((10 + s <=? c) && (c <? 50 + s) ||
                 (330 + s <=? c) && (c <? 370 + s))%N
             then 1 else 0).

(** The state after the first frame of a run on [curved_image], and the
    output of that call. *)
Definition after_first : state :=
  fst (process_frame (N := exact_numerics) initial_state curved_image).

Definition is_ok {A : Type} (r : result A) : bool :=
  match r with
  | Ok _ => true
  | Raise _ => false
  end.

Definition result_value {A : Type} (d : A) (r : result A) : A :=
  match r with
  | Ok a => a
  | Raise _ => d
  end.

Definition first_output : output :=
  result_value (mkOutput None None 0 0)
    (snd (process_frame (N := exact_numerics) initial_state curved_image)).

(** ** The polygon of [fillLane] *)

(** [np.int_] of a float: truncation. *)
Definition np_int (q : Q) : Z := Z.quot (Qnum q) (Zpos (Qden q)).

(** Lines 478-491 of [fillLane] and the conversion of line 499: the
    vertices handed to [cv2.fillPoly].  [shape] is [undist.shape] without
    the channel count, (rows, columns); the source unpacks it as
    [width, height, _]. *)
Definition fill_points (avg_left avg_right : poly) (shape : nat * nat)
  : list (Z * Z) :=
  let width := fst shape in
  let height := snd shape in
  let fity := linspace height in
  let left_fitx := map (polyval avg_left) fity in
  let right_fitx := map (polyval avg_right) fity in
  let left_transpose := combine left_fitx fity in
  let right_transpose := combine right_fitx fity in
  let points := left_transpose ++ rev right_transpose in
  map (fun p => (np_int (fst p), np_int (snd p))) points.

(** ** [threshold_image] *)

(** What OpenCV computes from the blurred frame, pixel by pixel: the gray
    level ([COLOR_RGB2GRAY]), the L channel of [COLOR_RGB2LUV] and the b
    channel of [COLOR_RGB2LAB]. *)
Record channels : Type := mkChannels {
  gray : nat -> nat -> Z;
  luv_l : nat -> nat -> Z;
  lab_b : nat -> nat -> Z
}.

(** The entries of [video_data] that [threshold_image] reads. *)
Record thresholds : Type := mkThresholds {
  L_THRESHOLD : Q * Q;
  B_THRESHOLD : Q * Q;
  L_THRESHOLD_LC : Q * Q;
  B_THRESHOLD_LC : Q * Q;
  CONTRAST_THRESHOLD : Q
}.

Definition splits_y : nat := 9.
Definition splits_x : nat := 20.

(** [np.mean] of the gray levels of the block of rows [y0 .. y0+bh-1] and
    columns [x0 .. x0+bw-1]. *)
Definition block_mean (ch : channels) (y0 bh x0 bw : nat) : Q :=
  inject_Z
    (fold_left Z.add
       (flat_map (fun y => map (fun x => gray ch y x) (seq x0 bw)) (seq y0 bh))
       0%Z)
  / inject_Z (Z.of_nat (bh * bw)).

Definition in_range (v : Z) (t : Q * Q) : bool :=
  Qle_bool (fst t) (inject_Z v) && Qle_bool (inject_Z v) (snd t).

(** The value of a pixel of block (i, j) (lines 286-316). *)
Definition combined (cfg : thresholds) (ch : channels) (bh bw i j : nat)
           (y x : nat) : Q :=
  let mean := block_mean ch (bh * i) bh (bw * j) bw in
  let low_contrast := Qlt_bool mean (CONTRAST_THRESHOLD cfg) in
  let l_thresh :=
    if low_contrast then L_THRESHOLD_LC cfg else L_THRESHOLD cfg in
  let b_thresh :=
    if low_contrast then B_THRESHOLD_LC cfg else B_THRESHOLD cfg in
  let lbinary := in_range (luv_l ch y x) l_thresh in
  let bbinary := in_range (lab_b ch y x) b_thresh in
  if bbinary || lbinary then 1 else 0.

(** [out_img[y0:y1, x0:x1] = block] *)
Definition assign_block (out : nat -> nat -> Q) (y0 y1 x0 x1 : nat)
           (block : nat -> nat -> Q) : nat -> nat -> Q :=
  fun y x =>
    if ((y0 <=? y) && (y <? y1) && (x0 <=? x) && (x <? x1))%nat
    then block y x else out y x.

(** [threshold_image].  OpenCV refuses an empty block ([cv2.error], here
    [None]), which happens when the frame has fewer than 9 rows or fewer
    than 20 columns. *)
Definition threshold_image (cfg : thresholds) (ch : channels) (h w : nat)
  : option image :=
  let bh := (h / splits_y)%nat in
  let bw := (w / splits_x)%nat in
  if ((bh =? 0) || (bw =? 0))%nat then None
  else
    Some (mkImage h w
            (fold_left
               (fun out i =>
                  fold_left
                    (fun out j =>
                       assign_block out (bh * i) (bh * (i + 1))
                                    (bw * j) (bw * (j + 1))
                                    (combined cfg ch bh bw i j))
                    (seq 0 splits_x) out)
               (seq 0 splits_y) (fun _ _ => 0))).

(** ** The perspective transform *)

Section Perspective.

(** The matrices of OpenCV and its two routines. *)
Variable matrix : Type.
Variable cv2_getPerspectiveTransform :
  list (Q * Q) -> list (Q * Q) -> matrix.
Variable cv2_warpPerspective : image -> option matrix -> nat * nat -> image.

(** The module-level variables [M] and [M_inv]. *)
Record transform_cache : Type := mkCache {
  M : option matrix;
  M_inv : option matrix
}.

(** [points *= (w, h)] *)
Definition scale_points (pts : list (Q * Q)) (w h : nat) : list (Q * Q) :=
  map (fun p => (fst p * inject_Z (Z.of_nat w),
                 snd p * inject_Z (Z.of_nat h))) pts.

(** [getPerspectiveTransform].  [src] is
    [video_data['TRANSFORM_SRC_POINTS']], four normalized points. *)
Definition getPerspectiveTransform (c : transform_cache)
           (src : (Q * Q) * (Q * Q) * (Q * Q) * (Q * Q)) (w h : nat)
  : transform_cache * (option matrix * option matrix) :=
  match M c with
  | None =>
      let '(s0, s1, s2, s3) := src in
      let src_points := [s0; s1; s2; s3] in
      let dst_points :=
        [(fst s0, 1); (fst s0, 0); (fst s3, 0); (fst s3, 1)] in
      let src_points := scale_points src_points w h in
      let dst_points := scale_points dst_points w h in
      let c' :=
        mkCache (Some (cv2_getPerspectiveTransform src_points dst_points))
                (Some (cv2_getPerspectiveTransform dst_points src_points)) in
      (c', (M c', M_inv c'))
  | Some _ => (c, (M c, M_inv c))
  end.

(** [warp_image] *)
Definition warp_image (c : transform_cache)
           (src : (Q * Q) * (Q * Q) * (Q * Q) * (Q * Q))
           (img : image) (inverse : bool) : transform_cache * image :=
  let h := img_height img in
  let w := img_width img in
  let '(c', (m, m_inv)) := getPerspectiveTransform c src w h in
  let matrix := if inverse then m_inv else m in
  (c', cv2_warpPerspective img matrix (w, h)).

End Perspective.

Arguments mkCache {matrix} M M_inv.
Arguments M {matrix} t.
Arguments M_inv {matrix} t.
Arguments getPerspectiveTransform {matrix} cv2_getPerspectiveTransform c src w h.
Arguments warp_image {matrix} cv2_getPerspectiveTransform cv2_warpPerspective
  c src img inverse.

(** Thresholds and channels for the examples. *)
Definition sample_thresholds : thresholds :=
  mkThresholds (215, 255) (145, 200) (200, 255) (140, 200) 100.

Definition sample_channels : channels :=
  mkChannels (fun y x => Z.of_nat (x mod 256))
             (fun y x => Z.of_nat (y mod 256))
             (fun y x => Z.of_nat ((x + y) mod 256)).

(** A symbolic stand-in for OpenCV's matrices: the two point lists a
    transform was asked for. *)
Definition symbolic_transform (src dst : list (Q * Q))
  : list (Q * Q) * list (Q * Q) := (src, dst).

Definition sample_src_points : (Q * Q) * (Q * Q) * (Q * Q) * (Q * Q) :=
  ((2 # 10, 1), (45 # 100, 6 # 10), (55 # 100, 6 # 10), (8 # 10, 1)).

(** The cache after a first call for a 1280 x 720 frame. *)
Definition first_cache : transform_cache (list (Q * Q) * list (Q * Q)) :=
  fst (getPerspectiveTransform symbolic_transform (mkCache None None)
                               sample_src_points 1280 720).

(** * Properties *)

(** ** Basic facts *)

Lemma Qlt_bool_iff (x y : Q) : Qlt_bool x y = true <-> x < y.
Proof.
  unfold Qlt_bool. rewrite negb_true_iff. split.
  - intros H. apply Qnot_le_lt. intros K.
    apply Qle_bool_iff in K. congruence.
  - intros H. destruct (Qle_bool y x) eqn:E; [|reflexivity].
    apply Qle_bool_iff in E. exfalso. exact (Qlt_not_le _ _ H E).
Qed.

Lemma Qlt_bool_false_iff (x y : Q) : Qlt_bool x y = false <-> y <= x.
Proof.
  unfold Qlt_bool. rewrite negb_false_iff. apply Qle_bool_iff.
Qed.

Lemma linspace_length (h : nat) : length (linspace h) = h.
Proof. unfold linspace. now rewrite length_map, length_seq. Qed.

Lemma linspace_S (h : nat) :
  linspace (S h) = linspace h ++ [inject_Z (Z.of_nat h)].
Proof. unfold linspace. now rewrite seq_S, map_app. Qed.

Lemma linspace_nth (h i : nat) :
  (i < h)%nat -> nth_error (linspace h) i = Some (inject_Z (Z.of_nat i)).
Proof.
  intros Hi. unfold linspace.
  rewrite nth_error_map, nth_error_seq.
  apply Nat.ltb_lt in Hi. now rewrite Hi.
Qed.

Lemma py_index_nat {A : Type} (l : list A) (i : nat) (a : A) :
  nth_error l i = Some a -> py_index l (Z.of_nat i) = Ok a.
Proof.
  intros H. unfold py_index.
  assert (Hlt : (i < length l)%nat) by (apply nth_error_Some; congruence).
  destruct (Z.of_nat i <? 0)%Z eqn:E; [apply Z.ltb_lt in E; lia|].
  replace ((0 <=? Z.of_nat i)%Z && (Z.of_nat i <? Z.of_nat (length l))%Z)
    with true.
  - now rewrite Nat2Z.id, H.
  - symmetry. apply andb_true_iff. split.
    + apply Z.leb_le. lia.
    + apply Z.ltb_lt. lia.
Qed.

Lemma py_index_linspace (h i : nat) :
  (i < h)%nat ->
  py_index (linspace h) (Z.of_nat i) = Ok (inject_Z (Z.of_nat i)).
Proof. intros Hi. apply py_index_nat. now apply linspace_nth. Qed.

Lemma np_max_snoc (l : list Q) (z m : Q) :
  np_max l = Ok m ->
  np_max (l ++ [z]) = Ok (if Qlt_bool m z then z else m).
Proof.
  destruct l as [|x r]; simpl; [discriminate|].
  intros [= <-]. now rewrite fold_left_app.
Qed.

(** The largest sample of an increasing function is the last one. *)
Lemma np_max_increasing (f : Q -> Q) (h : nat) :
  (forall a b : Z, (a < b)%Z -> f (inject_Z a) < f (inject_Z b)) ->
  np_max (map f (linspace (S h))) = Ok (f (inject_Z (Z.of_nat h))).
Proof.
  intros Hf. induction h as [|h IH].
  - reflexivity.
  - rewrite linspace_S, map_app. simpl map at 2.
    rewrite (np_max_snoc _ _ _ IH).
    replace (Qlt_bool _ _) with true; [reflexivity|].
    symmetry. apply Qlt_bool_iff. apply Hf. lia.
Qed.

Lemma scale_increasing (k : Q) :
  0 < k -> forall a b : Z, (a < b)%Z -> inject_Z a * k < inject_Z b * k.
Proof.
  intros Hk a b Hab. apply Qmult_lt_compat_r; [exact Hk|].
  now rewrite <- Zlt_Qlt.
Qed.

Lemma np_max_world (h : nat) :
  np_max (map (fun y => y * METERS_PER_PIXEL_Y) (linspace (S h)))
  = Ok (inject_Z (Z.of_nat h) * METERS_PER_PIXEL_Y).
Proof.
  apply (np_max_increasing (fun y => y * METERS_PER_PIXEL_Y)).
  apply scale_increasing. reflexivity.
Qed.

Lemma np_max_linspace (h : nat) :
  np_max (linspace (S h)) = Ok (inject_Z (Z.of_nat h)).
Proof.
  rewrite <- (map_id (linspace (S h))).
  apply (np_max_increasing (fun y => y)).
  intros a b Hab. now rewrite <- Zlt_Qlt.
Qed.

Lemma nonempty_length {A : Type} (l : list A) :
  l <> [] -> (0 <? length l)%nat = true.
Proof. destruct l; [congruence|reflexivity]. Qed.

Lemma empty_length {A : Type} (l : list A) :
  l = [] -> (0 <? length l)%nat = false.
Proof. now intros ->. Qed.

(** ** Curve construction *)

Lemma np_polyfit_ok {N : Numerics} (x y : list Q) :
  x <> [] -> length x = length y ->
  forallb (fun v => Qeq_bool v 0) x = false ->
  np_polyfit x y = Ok (polyfit x y).
Proof.
  intros Hx Hlen Hz. unfold np_polyfit. rewrite <- Hlen, Nat.eqb_refl, Hz.
  destruct x; [congruence|reflexivity].
Qed.

Lemma np_polyfit_unequal {N : Numerics} (x y : list Q) :
  x <> [] -> length x <> length y -> np_polyfit x y = Raise TypeError.
Proof.
  intros Hx Hlen. unfold np_polyfit. apply Nat.eqb_neq in Hlen.
  rewrite Hlen. destruct x; [congruence|reflexivity].
Qed.

Lemma np_polyfit_zero {N : Numerics} (x y : list Q) :
  x <> [] -> length x = length y ->
  forallb (fun v => Qeq_bool v 0) x = true ->
  np_polyfit x y = Raise LinAlgError.
Proof.
  intros Hx Hlen Hz. unfold np_polyfit. rewrite <- Hlen, Nat.eqb_refl, Hz.
  destruct x; [congruence|reflexivity].
Qed.

(** The abscissae of the first fit are the rows of the pixels. *)
Lemma rows_all_zero (ys : list Z) :
  forallb (fun v => Qeq_bool v 0) (map inject_Z ys) = forallb (Z.eqb 0) ys.
Proof.
  induction ys as [|y ys IH]; [reflexivity|].
  cbn [map forallb]. rewrite IH. f_equal.
  destruct (Z.eqb_spec 0 y) as [<-|Hy]; [reflexivity|].
  destruct (Qeq_bool (inject_Z y) 0) eqn:E; [|reflexivity].
  apply Qeq_bool_iff in E. unfold Qeq in E. cbn in E. lia.
Qed.

(** The abscissae of the second fit are the sample rows, scaled: with two
    rows or more one of them is not zero. *)
Lemma world_rows_not_zero (h : nat) :
  forallb (fun v => Qeq_bool v 0)
          (map (fun y => y * METERS_PER_PIXEL_Y) (linspace (S (S h))))
  = false.
Proof. reflexivity. Qed.

(** The line that the constructor builds when both fits succeed: the
    pixel sequences have one length, a pixel lies off row 0, and the image
    has two rows or more. *)
Lemma Line_init_fit {N : Numerics} (xs ys : list Z) (h : nat) (d : bool) :
  xs <> [] -> ys <> [] -> length xs = length ys ->
  forallb (Z.eqb 0) ys = false -> (2 <= h)%nat ->
  let c := polyfit (map inject_Z ys) (map inject_Z xs) in
  let sy := linspace h in
  let sx := map (polyval c) sy in
  let w := polyfit (map (fun y => y * METERS_PER_PIXEL_Y) sy)
                   (map (fun x => x * METERS_PER_PIXEL_X) sx) in
  let maxy := inject_Z (Z.of_nat (h - 1)) * METERS_PER_PIXEL_Y in
  Line_init xs ys h d =
  Ok (mkLine sx sy xs ys d (Some c)
             (Some (fdiv (pow15 (1 + ((2 * p0 w * maxy) + p1 w) ^ 2))
                         (Qabs (2 * p0 w))))
             (Some (slope_at c 0))
             (Some (slope_at c (inject_Z (Z.of_nat (h / 2)))))
             (Some (slope_at c (inject_Z (Z.of_nat (h - 1)))))).
Proof.
  intros Hx Hy Hlen Hrow Hh. cbv zeta. unfold Line_init, world_curvature.
  rewrite (nonempty_length _ Hx), (nonempty_length _ Hy). cbn [andb].
  rewrite np_polyfit_ok.
  2:{ destruct ys; [congruence|discriminate]. }
  2:{ now rewrite !length_map. }
  2:{ now rewrite rows_all_zero. }
  cbn [bind].
  destruct h as [|[|h]]; [lia|lia|].
  rewrite np_max_world. cbn [bind].
  rewrite np_polyfit_ok.
  2:{ rewrite linspace_S, map_app.
      destruct (map _ (linspace (S h))); discriminate. }
  2:{ now rewrite !length_map. }
  2:{ apply world_rows_not_zero. }
  cbn [bind].
  replace (S (S h) - 1)%nat with (S h) by lia.
  change 0%Z with (Z.of_nat 0).
  rewrite (py_index_linspace (S (S h)) 0) by lia. cbn [bind].
  rewrite (py_index_linspace (S (S h)) (S (S h) / 2)).
  2:{ apply Nat.div_lt; lia. }
  cbn [bind].
  replace (Z.of_nat (S (S h)) - 1)%Z with (Z.of_nat (S h)) by lia.
  rewrite (py_index_linspace (S (S h)) (S h)) by lia. cbn [bind].
  reflexivity.
Qed.

(** The failures of the constructor, in the order in which the code
    reaches them. *)
Lemma Line_init_unequal {N : Numerics} (xs ys : list Z) (h : nat) (d : bool) :
  xs <> [] -> ys <> [] -> length xs <> length ys ->
  Line_init xs ys h d = Raise TypeError.
Proof.
  intros Hx Hy Hlen. unfold Line_init.
  rewrite (nonempty_length _ Hx), (nonempty_length _ Hy). cbn [andb].
  rewrite np_polyfit_unequal; [reflexivity| |].
  - destruct ys; [congruence|discriminate].
  - rewrite !length_map. congruence.
Qed.

Lemma Line_init_row0 {N : Numerics} (xs ys : list Z) (h : nat) (d : bool) :
  xs <> [] -> ys <> [] -> length xs = length ys ->
  forallb (Z.eqb 0) ys = true ->
  Line_init xs ys h d = Raise LinAlgError.
Proof.
  intros Hx Hy Hlen Hrow. unfold Line_init.
  rewrite (nonempty_length _ Hx), (nonempty_length _ Hy). cbn [andb].
  rewrite np_polyfit_zero; [reflexivity| | |].
  - destruct ys; [congruence|discriminate].
  - now rewrite !length_map.
  - now rewrite rows_all_zero.
Qed.

Lemma Line_init_low {N : Numerics} (xs ys : list Z) (h : nat) (d : bool) :
  xs <> [] -> ys <> [] -> length xs = length ys ->
  forallb (Z.eqb 0) ys = false -> (h < 2)%nat ->
  Line_init xs ys h d
  = Raise (match h with O => ValueError | _ => LinAlgError end).
Proof.
  intros Hx Hy Hlen Hrow Hh. unfold Line_init, world_curvature.
  rewrite (nonempty_length _ Hx), (nonempty_length _ Hy). cbn [andb].
  rewrite np_polyfit_ok.
  2:{ destruct ys; [congruence|discriminate]. }
  2:{ now rewrite !length_map. }
  2:{ now rewrite rows_all_zero. }
  cbn [bind]. destruct h as [|[|h]]; [reflexivity|reflexivity|lia].
Qed.

(** A fit that the constructor returned had pixel sequences of one length,
    a pixel off row 0 and two sample rows or more. *)
Lemma Line_init_returned {N : Numerics} (xs ys : list Z) (h : nat) (d : bool)
      (l : Line) :
  xs <> [] -> ys <> [] -> Line_init xs ys h d = Ok l ->
  length xs = length ys /\ forallb (Z.eqb 0) ys = false /\ (2 <= h)%nat.
Proof.
  intros Hx Hy Hl.
  destruct (Nat.eq_dec (length xs) (length ys)) as [Hlen|Hlen].
  2:{ rewrite (Line_init_unequal _ _ _ _ Hx Hy Hlen) in Hl. discriminate. }
  destruct (forallb (Z.eqb 0) ys) eqn:Hrow.
  { rewrite (Line_init_row0 _ _ _ _ Hx Hy Hlen Hrow) in Hl. discriminate. }
  destruct (Nat.lt_ge_cases h 2) as [Hh|Hh].
  { rewrite (Line_init_low _ _ _ _ Hx Hy Hlen Hrow Hh) in Hl. discriminate. }
  auto.
Qed.

Lemma Line_init_empty {N : Numerics} (xs ys : list Z) (h : nat) (d : bool) :
  xs = [] \/ ys = [] ->
  Line_init xs ys h d =
  Ok (mkLine [] [] xs ys false None None None None None).
Proof.
  intros H. unfold Line_init.
  destruct H as [H|H]; rewrite (empty_length _ H);
    now rewrite ?andb_false_r.
Qed.

(** ** The validity gate *)

(** A line that is not detected is invalid whatever its other attributes
    hold: the conjunction stops at its first operand. *)
Lemma isValid_not_detected (l : Line) :
  detected l = false -> isValid l = Ok false.
Proof. intros H. unfold isValid. now rewrite H. Qed.

(** On a well-formed line [isValid] returns. *)
Lemma isValid_total (l : Line) :
  wf_line l = true -> isValid l = Ok (valid_b l).
Proof.
  intros Hwf. unfold valid_b.
  destruct (isValid l) as [[|]|e] eqn:E; try reflexivity.
  exfalso. revert E. unfold isValid, wf_line, fitted in *.
  destruct (detected l); cbn [negb]; [|discriminate].
  cbn [implb] in Hwf.
  destruct (line_coefficients l), (curvature l), (upper_slope l),
    (mid_slope l), (lower_slope l); try discriminate Hwf.
  cbn [attr bind].
  repeat match goal with
         | |- context [if ?b then _ else _] => destruct b
         end; discriminate.
Qed.

(** What the gate accepts, for a line that carries a fit: the three slope
    tests compare the slope itself, not its absolute value. *)
Lemma isValid_true_iff (l : Line) (c : poly) (u m lo : Q) :
  line_coefficients l = Some c ->
  upper_slope l = Some u -> mid_slope l = Some m -> lower_slope l = Some lo ->
  isValid l = Ok true <->
  detected l = true /\
  (MIN_PIXELS_FOR_VALID_LINE < length (lane_pixels_x l))%nat /\
  Qabs (u - lo) < 12 # 10 /\
  u < SLOPE_TOLERANCE /\ m < SLOPE_TOLERANCE /\ lo < SLOPE_TOLERANCE.
Proof.
  intros Hc Hu Hm Hlo. unfold isValid. rewrite Hc, Hu, Hm, Hlo.
  cbn [attr bind]. change (poly_len c =? 3)%nat with true. cbn [negb].
  rewrite <- !Qlt_bool_iff, <- Nat.ltb_lt.
  destruct (detected l); cbn [negb]; [|intuition discriminate].
  destruct (_ <? _)%nat; cbn [negb]; [|intuition discriminate].
  destruct (Qlt_bool (Qabs _) _); cbn [negb]; [|intuition discriminate].
  destruct (Qlt_bool u _); cbn [negb]; [|intuition discriminate].
  destruct (Qlt_bool m _); cbn [negb]; [|intuition discriminate].
  destruct (Qlt_bool lo _); intuition congruence.
Qed.

(** C1 (evaluation of the code where it departs from the claim).  A band
    of 4800 pixels along x = 1200 - 5 y in an image of height 720 gives a
    detected line whose slope is -5 at the top, in the middle and at the
    bottom: its absolute value, 5, is not below the tolerance 1.2, and
    [isValid] returns true. *)
Theorem isValid_accepts_steep_band :
  (l <- Line_init (N := exact_numerics)
                  (map snd steep_band) (map fst steep_band) 720 true ;;
   Ok (detected l, length (lane_pixels_x l),
       upper_slope l, mid_slope l, lower_slope l, isValid l))
  = Ok (true, 4800%nat, Some (-5 # 1), Some (-5 # 1), Some (-5 # 1), Ok true)
  /\ Qlt_bool (Qabs (-5 # 1)) SLOPE_TOLERANCE = false.
Proof. split; vm_compute; reflexivity. Qed.

(** C10.  A line constructed from an empty pixel set has [detected] false
    and none of the attributes of a fit; [isValid] returns false on it, and
    on every line that is not detected, without reading those attributes
    (reading an absent one would raise). *)
Theorem isValid_of_empty_line {N : Numerics}
        (xs ys : list Z) (h : nat) (d : bool) :
  xs = [] \/ ys = [] ->
  exists l,
    Line_init xs ys h d = Ok l /\
    detected l = false /\
    line_coefficients l = None /\ curvature l = None /\
    upper_slope l = None /\ mid_slope l = None /\ lower_slope l = None /\
    isValid l = Ok false.
Proof.
  intros H. eexists. split; [apply (Line_init_empty _ _ _ _ H)|].
  cbn. repeat split; reflexivity.
Qed.

Lemma isValid_of_empty_line_witness :
  exists l,
    Line_init (N := exact_numerics) [] [] 720 true = Ok l /\
    detected l = false /\
    line_coefficients l = None /\ curvature l = None /\
    upper_slope l = None /\ mid_slope l = None /\ lower_slope l = None /\
    isValid l = Ok false.
Proof.
  apply (isValid_of_empty_line (N := exact_numerics) [] [] 720 true).
  left. reflexivity.
Defined.

(** ** The samples and the curvature *)






















(** ** The history *)

Lemma firstn_snoc {A : Type} (l : list A) (n : nat) (x : A) :
  nth_error l n = Some x -> firstn (S n) l = firstn n l ++ [x].
Proof.
  revert l. induction n as [|n IH]; intros [|a l] H; try discriminate.
  - cbn in H. now injection H as ->.
  - cbn in H. change (a :: firstn (S n) l = a :: (firstn n l ++ [x])).
    f_equal. exact (IH l H).
Qed.

Lemma wf_side_line (side : Side) (f : Frame) :
  wf_frame f = true -> wf_line (side_line side f) = true.
Proof.
  unfold wf_frame. intros H. apply andb_true_iff in H.
  destruct side; cbn; tauto.
Qed.

(** The loop returns its accumulator followed by the first [count] valid
    lines among the frames below index [n], from the highest index down. *)
Lemma walk_back_spec (frames : list Frame) (side : Side) :
  forallb wf_frame frames = true ->
  forall (n count : nat) (acc : list Line),
    (n <= length frames)%nat ->
    walk_back frames side n count acc
    = Ok (acc ++ firstn count
                   (filter valid_b
                           (rev (map (side_line side) (firstn n frames))))).
Proof.
  intros Hwf. induction n as [|n IH]; intros count acc Hn.
  - cbn. now rewrite firstn_nil, app_nil_r.
  - destruct count as [|count].
    + cbn. now rewrite app_nil_r.
    + destruct (nth_error frames n) as [f|] eqn:Hf.
      2:{ apply nth_error_None in Hf. lia. }
      cbn [walk_back].
      rewrite (py_index_nat _ _ _ Hf). cbn [bind].
      assert (Hl : wf_line (side_line side f) = true).
      { apply wf_side_line.
        rewrite forallb_forall in Hwf. apply Hwf.
        eapply nth_error_In. exact Hf. }
      rewrite (isValid_total _ Hl). cbn [bind].
      rewrite (firstn_snoc _ _ _ Hf), map_app, rev_app_distr.
      cbn [map rev app filter].
      destruct (valid_b (side_line side f)).
      * rewrite IH by lia. cbn [firstn]. now rewrite <- app_assoc.
      * rewrite IH by lia. reflexivity.
Qed.

Lemma state_ok_inv (st : state) :
  state_ok st = true ->
  frame_number st = (Z.of_nat (length (FRAMES st)) - 1)%Z /\
  forallb wf_frame (FRAMES st) = true.
Proof.
  unfold state_ok. intros H. apply andb_true_iff in H as [H1 H2].
  apply Z.eqb_eq in H1. split; [exact H1|exact H2].
Qed.

Lemma getLastValidLines_spec (st : state) (side : Side) (count : nat) :
  state_ok st = true ->
  getLastValidLines st side count = Ok (firstn count (valid_history st side)).
Proof.
  intros H. apply state_ok_inv in H as [Hn Hwf].
  unfold getLastValidLines, valid_history.
  replace (Z.to_nat (frame_number st + 1)) with (length (FRAMES st)) by lia.
  rewrite (walk_back_spec _ _ Hwf) by lia.
  now rewrite firstn_all.
Qed.

(** C6.  In a state of a run, [getLastValidLines] returns without failing;
    its result is the list of the valid lines of the side, taken from the
    current frame backward (invalid ones left out), cut after [count]
    lines; its length is the smaller of [count] and the number of valid
    lines of that side in the history, which may be zero. *)
Theorem getLastValidLines_correct
        (st : state) (side : Side) (count : nat) :
  state_ok st = true ->
  exists ls,
    getLastValidLines st side count = Ok ls /\
    ls = firstn count
                (filter valid_b (rev (map (side_line side) (FRAMES st)))) /\
    length ls
    = Nat.min count
              (length (filter valid_b (map (side_line side) (FRAMES st)))).
Proof.
  intros H. eexists. split; [apply (getLastValidLines_spec _ _ _ H)|].
  split; [reflexivity|].
  unfold valid_history.
  now rewrite length_firstn, filter_rev, length_rev.
Qed.

Lemma getLastValidLines_correct_witness :
  exists ls,
    getLastValidLines sample_state LEFT 3 = Ok ls /\
    ls = firstn 3
                (filter valid_b
                        (rev (map (side_line LEFT) (FRAMES sample_state)))) /\
    length ls
    = Nat.min 3
              (length (filter valid_b
                              (map (side_line LEFT) (FRAMES sample_state)))).
Proof.
  apply (getLastValidLines_correct sample_state LEFT 3).
  vm_compute. reflexivity.
Defined.

(** The walk on the sample history: the third most recent valid right line
    does not exist, and the invalid frame 3 is skipped on the left. *)
Example getLastValidLines_sample :
  getLastValidLines sample_state RIGHT 3 = Ok [flat_line 500 true] /\
  getLastValidLines sample_state LEFT 6
  = Ok [flat_line 108 true; flat_line 107 true; flat_line 106 true;
        flat_line 105 true; flat_line 104 true; flat_line 102 true].
Proof. split; vm_compute; reflexivity. Qed.

(** ** The averaged coefficients *)

Lemma valid_b_coeffs (l : Line) :
  valid_b l = true -> line_coefficients l = Some (coeffs_of l).
Proof.
  unfold valid_b, isValid, coeffs_of.
  destruct (detected l); cbn [negb]; [|discriminate].
  destruct (line_coefficients l); [reflexivity|discriminate].
Qed.

Lemma mapM_coeffs (ls : list Line) :
  forallb valid_b ls = true ->
  mapM (fun l => attr (line_coefficients l)) ls = Ok (map coeffs_of ls).
Proof.
  induction ls as [|l ls IH]; [reflexivity|].
  cbn [forallb]. intros H. apply andb_true_iff in H as [Hl Hls].
  cbn [mapM map]. rewrite (valid_b_coeffs _ Hl). cbn [attr bind].
  now rewrite (IH Hls).
Qed.

Lemma forallb_filter {A : Type} (p : A -> bool) (l : list A) :
  forallb p (filter p l) = true.
Proof.
  induction l as [|a l IH]; [reflexivity|].
  cbn [filter]. destruct (p a) eqn:E; [|exact IH].
  cbn [forallb]. now rewrite E, IH.
Qed.

Lemma forallb_firstn {A : Type} (p : A -> bool) (n : nat) (l : list A) :
  forallb p l = true -> forallb p (firstn n l) = true.
Proof.
  revert l. induction n as [|n IH]; intros [|a l]; try reflexivity.
  cbn [forallb firstn]. intros H. apply andb_true_iff in H as [Ha Hl].
  now rewrite Ha, (IH l Hl).
Qed.

Lemma average_coeffs_spec (st : state) (side : Side) :
  state_ok st = true ->
  average_coeffs st side
  = Ok (np_mean_axis0
          (map coeffs_of
               (firstn AVERAGE_OVER_X_FRAMES (valid_history st side)))).
Proof.
  intros H. unfold average_coeffs.
  rewrite (getLastValidLines_spec _ _ _ H). cbn [bind].
  rewrite mapM_coeffs; [reflexivity|].
  apply forallb_firstn, forallb_filter.
Qed.

Lemma state_ok_older (st : state) (f0 : Frame) :
  state_ok st = true -> wf_frame f0 = true ->
  state_ok (mkState (f0 :: FRAMES st) (frame_number st + 1)) = true.
Proof.
  unfold state_ok. cbn [FRAMES frame_number forallb length].
  intros H H0. apply andb_true_iff in H as [H1 H2].
  apply Z.eqb_eq in H1. rewrite H0, H2.
  replace (_ =? _)%Z with true; [reflexivity|].
  symmetry. apply Z.eqb_eq. lia.
Qed.

(** The sum that [np.mean] divides, as a sum from the right. *)
Lemma Qsum_fold_right (l : list Q) : Qsum l == fold_right Qplus 0 l.
Proof.
  unfold Qsum.
  assert (H : forall s, fold_left Qplus l s == s + fold_right Qplus 0 l).
  { induction l as [|q l IH]; intros s; cbn [fold_left fold_right].
    - ring.
    - rewrite IH. ring. }
  rewrite H. ring.
Qed.

(** C5.  In a state of a run whose history holds k valid lines for a side,
    with coefficients cs: if k <= 7 the averaged coefficients are the mean
    of cs, coefficient by coefficient: the sum of the k values divided by
    k (and nan, no polynomial, for k = 0); and if the history holds at
    least 7 valid lines, one more frame added before the oldest one leaves
    the averaged coefficients unchanged. *)
Theorem average_coeffs_window (st : state) (side : Side) :
  state_ok st = true ->
  let cs := map coeffs_of (valid_history st side) in
  let k := inject_Z (Z.of_nat (length cs)) in
  map line_coefficients (valid_history st side) = map Some cs /\
  ((length cs <= 7)%nat ->
   (cs = [] -> average_coeffs st side = Ok None) /\
   (cs <> [] ->
    exists m,
      average_coeffs st side = Ok (Some m) /\
      p0 m == fold_right Qplus 0 (map p0 cs) / k /\
      p1 m == fold_right Qplus 0 (map p1 cs) / k /\
      p2 m == fold_right Qplus 0 (map p2 cs) / k)) /\
  ((7 <= length cs)%nat ->
   forall f0 : Frame,
     wf_frame f0 = true ->
     average_coeffs (mkState (f0 :: FRAMES st) (frame_number st + 1)) side
     = average_coeffs st side).
Proof.
  intros H. cbv zeta. split; [|split].
  - unfold valid_history. rewrite map_map. apply map_ext_in.
    intros l Hl. apply filter_In in Hl as [_ Hl].
    now apply valid_b_coeffs.
  - intros Hk. rewrite length_map in Hk.
    rewrite (average_coeffs_spec _ _ H).
    unfold AVERAGE_OVER_X_FRAMES. rewrite firstn_all2 by exact Hk.
    split.
    + now intros ->.
    + intros Hne.
      destruct (map coeffs_of (valid_history st side)) as [|c cs] eqn:E;
        [congruence|].
      eexists. split; [reflexivity|]. cbn [p0 p1 p2].
      rewrite !Qsum_fold_right. repeat split; reflexivity.
  - intros Hk f0 H0. rewrite length_map in Hk.
    rewrite (average_coeffs_spec _ _ (state_ok_older _ _ H H0)).
    rewrite (average_coeffs_spec _ _ H).
    unfold valid_history at 1. cbn [FRAMES map rev].
    rewrite filter_app, firstn_app.
    fold (valid_history st side).
    replace (AVERAGE_OVER_X_FRAMES - length (valid_history st side))%nat
      with 0%nat by (unfold AVERAGE_OVER_X_FRAMES; lia).
    cbn [firstn]. now rewrite app_nil_r.
Qed.

(** The sample history without its first frame holds seven valid left
    lines, at x = 120.5, 121.5, 123.5, ..., 127.5: their mean is 1739/14,
    and a frame added before them does not change it. *)
Lemma average_coeffs_window_witness :
  let st := mkState (tl sample_history) 7 in
  (exists m,
      average_coeffs st LEFT = Ok (Some m) /\
      p0 m == 0 /\ p1 m == 0 /\ p2 m == 1739 # 14) /\
  average_coeffs
    (mkState (mkFrame (-1) (flat_line 99 true) (flat_line 499 true)
                :: FRAMES st)
             (frame_number st + 1)) LEFT
  = average_coeffs st LEFT.
Proof.
  cbv zeta.
  assert (H : state_ok (mkState (tl sample_history) 7) = true)
    by (vm_compute; reflexivity).
  destruct (average_coeffs_window (mkState (tl sample_history) 7) LEFT H)
    as [_ [Hmean Hold]].
  split.
  - destruct Hmean as [_ Hm]; [vm_compute; lia|].
    destruct Hm as (m & Hm & H0 & H1 & H2); [vm_compute; discriminate|].
    exists m. split; [exact Hm|].
    rewrite H0, H1, H2. split; [|split]; vm_compute; reflexivity.
  - apply Hold.
    + vm_compute. lia.
    + vm_compute. reflexivity.
Defined.

(** The two averages of the sample history: eight valid left lines, of
    which the seven most recent count; one valid right line. *)
Example average_coeffs_sample :
  average_coeffs sample_state LEFT
  = Ok (np_mean_axis0
          (map (fun x0 => Poly 0 0 ((2 * x0 + 39) # 2))
               [108; 107; 106; 105; 104; 102; 101]%Z)) /\
  average_coeffs sample_state RIGHT
  = Ok (np_mean_axis0 [Poly 0 0 (1039 # 2)]).
Proof. split; vm_compute; reflexivity. Qed.

(** ** The invariant of a run *)

Lemma Line_init_wf {N : Numerics} (xs ys : list Z) (h : nat) (d : bool)
      (l : Line) :
  Line_init xs ys h d = Ok l -> wf_line l = true.
Proof.
  unfold Line_init.
  destruct (_ && _); [|now intros [= <-]].
  destruct (np_polyfit _ _) as [c|]; cbn [bind]; [|discriminate].
  destruct (world_curvature _ _) as [cv|]; cbn [bind]; [|discriminate].
  destruct (py_index _ 0) as [y0|]; cbn [bind]; [|discriminate].
  destruct (py_index _ (Z.of_nat (h / 2))) as [y1|]; cbn [bind];
    [|discriminate].
  destruct (py_index _ (Z.of_nat h - 1)) as [y2|]; cbn [bind];
    [|discriminate].
  intros [= <-]. unfold wf_line, fitted. cbn. now destruct d.
Qed.

Lemma set_detected_false_wf (l : Line) : wf_line (set_detected l false) = true.
Proof. reflexivity. Qed.

Lemma cross_validate_wf (l r l' r' : Line) :
  wf_line l = true -> wf_line r = true ->
  cross_validate l r = Ok (l', r') ->
  wf_line l' = true /\ wf_line r' = true.
Proof.
  intros Hl Hr. unfold cross_validate.
  destruct (isValid l) as [vl|]; cbn [bind]; [|discriminate].
  destruct (if vl then isValid r else Ok false) as [vr|]; cbn [bind];
    [|discriminate].
  destruct (if vl && vr then _ else _) as [[|]|]; cbn [bind];
    intros [= <- <-]; auto using set_detected_false_wf.
Qed.

Lemma fit_and_validate_wf {N : Numerics} (lp rp : list (Z * Z)) (h : nat)
      (l r : Line) :
  fit_and_validate lp rp h = Ok (l, r) ->
  wf_line l = true /\ wf_line r = true.
Proof.
  unfold fit_and_validate.
  destruct (Line_init (map snd lp) _ _ _) as [nl|] eqn:El; cbn [bind];
    [|discriminate].
  destruct (Line_init (map snd rp) _ _ _) as [nr|] eqn:Er; cbn [bind];
    [|discriminate].
  apply cross_validate_wf; eapply Line_init_wf; eassumption.
Qed.

Lemma detect_wf {N : Numerics} (st : state) (n : Z) (img : image)
      (l r : Line) :
  detect st n img = Ok (l, r) -> wf_line l = true /\ wf_line r = true.
Proof.
  unfold detect, find_lane_pixels.
  destruct (if (0 <? n)%Z then _ else _) as [prev|]; cbn [bind];
    [|discriminate].
  destruct (search img _ _) as [px|]; cbn [bind]; [|discriminate].
  apply fit_and_validate_wf.
Qed.

(** A call whose detection step returns appends one frame and keeps the
    invariant, whatever the rest of the call does. *)
Lemma process_frame_appends {N : Numerics} (st : state) (img : image)
      (l r : Line) :
  state_ok st = true ->
  detect st (frame_number st + 1) img = Ok (l, r) ->
  FRAMES (fst (process_frame st img))
  = FRAMES st ++ [mkFrame (frame_number st + 1) l r] /\
  state_ok (fst (process_frame st img)) = true.
Proof.
  intros Hok Hd. unfold process_frame. rewrite Hd. cbn [fst FRAMES].
  split; [reflexivity|].
  apply detect_wf in Hd as [Hl Hr].
  apply state_ok_inv in Hok as [Hn Hwf].
  unfold state_ok. cbn [FRAMES frame_number].
  rewrite forallb_app, Hwf. cbn [forallb]. unfold wf_frame at 1.
  cbn [left_line right_line]. rewrite Hl, Hr. cbn [andb].
  rewrite andb_true_r. apply Z.eqb_eq. rewrite length_app. cbn [length]. lia.
Qed.

Lemma reachable_state_ok {N : Numerics} (st : state) :
  reachable st -> state_ok st = true.
Proof.
  induction 1 as [|st img st' out _ IH Hstep]; [reflexivity|].
  unfold process_frame in Hstep.
  destruct (detect st (frame_number st + 1) img) as [[l r]|] eqn:Hd;
    [|discriminate].
  destruct (process_frame_appends st img l r IH Hd) as [_ Hok].
  unfold process_frame in Hok. rewrite Hd in Hok. cbn [fst] in Hok.
  now injection Hstep as <- _.
Qed.

(** ** The frame callback *)

(** C2 (evaluation of the code where it departs from the claim).  On the
    first frame of a run, a 720 x 1280 image without a nonzero pixel: the
    call appends its frame record and then raises [IndexError], at
    [getLastValidLines(Side.LEFT, 1)[0]]. *)
Theorem process_frame_blank_first_frame :
  let r := process_frame (N := exact_numerics) initial_state (blank 720 1280) in
  length (FRAMES (fst r)) = 1%nat /\
  frame_number (fst r) = 0%Z /\
  snd r = Raise IndexError /\
  getLastValidLines (fst r) LEFT 1 = Ok [].
Proof. vm_compute. repeat split; reflexivity. Qed.

(** ** The choice of the search *)

Lemma previous_frame_last (st : state) (f : Frame) :
  state_ok st = true -> previous_frame st = Some f ->
  (0 <? frame_number st + 1)%Z = true /\
  py_index (FRAMES st) (frame_number st + 1 - 1) = Ok f.
Proof.
  intros Hok Hp. apply state_ok_inv in Hok as [Hn _].
  unfold previous_frame in Hp.
  destruct (rev (FRAMES st)) as [|f' r] eqn:E; [discriminate|].
  injection Hp as ->.
  assert (Hf : FRAMES st = rev r ++ [f]).
  { rewrite <- (rev_involutive (FRAMES st)), E. reflexivity. }
  rewrite Hf, length_app in Hn. cbn [length] in Hn.
  split; [apply Z.ltb_lt; lia|].
  replace (frame_number st + 1 - 1)%Z with (Z.of_nat (length (rev r))) by lia.
  apply py_index_nat. rewrite Hf, nth_error_app2 by lia.
  now rewrite Nat.sub_diag.
Qed.

Lemma previous_frame_none (st : state) :
  state_ok st = true ->
  previous_frame st = None <-> (frame_number st + 1 = 0)%Z.
Proof.
  intros Hok. apply state_ok_inv in Hok as [Hn _].
  unfold previous_frame.
  destruct (rev (FRAMES st)) as [|f r] eqn:E.
  - apply (f_equal (@length Frame)) in E. rewrite length_rev in E.
    cbn in E. split; [lia|reflexivity].
  - apply (f_equal (@length Frame)) in E. rewrite length_rev in E.
    cbn in E. split; [discriminate|lia].
Qed.

Lemma isValid_true_valid_b (l : Line) :
  isValid l = Ok true -> valid_b l = true.
Proof. unfold valid_b. now intros ->. Qed.

Lemma near_poly_iff (c : poly) (y x : Z) :
  near_poly c (y, x) = true <->
  Qabs (inject_Z x - polyval c (inject_Z y)) < 50.
Proof.
  unfold near_poly, poly_margin. cbn [fst snd].
  rewrite andb_true_iff, !Qlt_bool_iff, Qabs_Qlt_condition.
  split; intros [H1 H2]; split; lra.
Qed.

(** C4.  In a state of a run, the search of the next frame is decided by
    the last recorded frame.  There is none exactly for frame 0.  If there
    is one and both of its lines are valid, the new lines are fitted to
    the nonzero pixels whose x is within 50 pixels of the previous
    polynomial of the side at the pixel's y; if there is none, or one of
    its lines is invalid, they are fitted to the pixels found by the
    histogram and sliding-window search. *)
Theorem search_strategy {N : Numerics} (st : state) (warped : image) :
  state_ok st = true ->
  (previous_frame st = None <-> (frame_number st + 1 = 0)%Z) /\
  (forall f,
      previous_frame st = Some f ->
      isValid (left_line f) = Ok true -> isValid (right_line f) = Ok true ->
      exists cl cr,
        line_coefficients (left_line f) = Some cl /\
        line_coefficients (right_line f) = Some cr /\
        detect st (frame_number st + 1) warped
        = fit_and_validate (filter (near_poly cl) (nonzero warped))
                           (filter (near_poly cr) (nonzero warped))
                           (img_height warped)) /\
  (previous_frame st = None \/
   (exists f, previous_frame st = Some f /\
              (isValid (left_line f) = Ok false \/
               isValid (right_line f) = Ok false)) ->
   detect st (frame_number st + 1) warped
   = (px <- sliding_window_search warped ;;
      fit_and_validate (fst px) (snd px) (img_height warped))) /\
  (forall c y x,
      near_poly c (y, x) = true <->
      Qabs (inject_Z x - polyval c (inject_Z y)) < 50).
Proof.
  intros Hok. split; [exact (previous_frame_none st Hok)|].
  split; [|split; [|exact near_poly_iff]].
  - intros f Hf Hl Hr.
    destruct (previous_frame_last st f Hok Hf) as [Hpos Hidx].
    exists (coeffs_of (left_line f)), (coeffs_of (right_line f)).
    pose proof (valid_b_coeffs _ (isValid_true_valid_b _ Hl)) as Hcl.
    pose proof (valid_b_coeffs _ (isValid_true_valid_b _ Hr)) as Hcr.
    split; [exact Hcl|]. split; [exact Hcr|].
    unfold detect. rewrite Hpos, Hidx. cbn [bind fst snd].
    unfold find_lane_pixels, search, cold_start, missing_or_invalid.
    rewrite Hl, Hr. cbn [bind negb].
    unfold poly_search. rewrite Hcl, Hcr. reflexivity.
  - intros [Hnone|[f [Hf Hinv]]].
    + pose proof (proj1 (previous_frame_none st Hok) Hnone) as H0.
      unfold detect. rewrite H0. reflexivity.
    + destruct (previous_frame_last st f Hok Hf) as [Hpos Hidx].
      unfold detect. rewrite Hpos, Hidx. cbn [bind fst snd].
      unfold find_lane_pixels, search, cold_start, missing_or_invalid.
      destruct Hinv as [Hl|Hr].
      * rewrite Hl. reflexivity.
      * apply state_ok_inv in Hok as [_ Hwf].
        assert (Hwl : wf_line (left_line f) = true).
        { apply (wf_side_line LEFT).
          rewrite forallb_forall in Hwf. apply Hwf.
          unfold previous_frame in Hf.
          destruct (rev (FRAMES st)) as [|f' r] eqn:E; [discriminate|].
          injection Hf as ->. apply in_rev. rewrite E. now left. }
        rewrite (isValid_total _ Hwl), Hr. cbn [bind negb].
        now destruct (valid_b (left_line f)).
Qed.

Lemma search_strategy_witness :
  exists cl cr,
    line_coefficients (flat_line 10 true) = Some cl /\
    line_coefficients (flat_line 330 true) = Some cr /\
    detect (N := exact_numerics) warm_state (frame_number warm_state + 1)
           lanes_image
    = fit_and_validate (N := exact_numerics)
                       (filter (near_poly cl) (nonzero lanes_image))
                       (filter (near_poly cr) (nonzero lanes_image))
                       (img_height lanes_image).
Proof.
  assert (H : state_ok warm_state = true) by (vm_compute; reflexivity).
  destruct (search_strategy (N := exact_numerics) warm_state lanes_image H)
    as [_ [Hwarm _]].
  apply (Hwarm (mkFrame 0 (flat_line 10 true) (flat_line 330 true))).
  - reflexivity.
  - vm_compute. reflexivity.
  - vm_compute. reflexivity.
Defined.

(** The two searches on the image with two markings.  The cold start
    returns the pixels window by window from the bottom (nine windows of
    10 rows); the warm start, around x = 29.5 and x = 349.5, returns them
    row by row from the top. *)
Example searches_on_lanes_image :
  let rows_of_window (band : list (Z * Z)) (w : Z) :=
    filter (fun p => (90 - 10 * (w + 1) <=? fst p)
                     && (fst p <? 90 - 10 * w))%Z band in
  sliding_window_search lanes_image
  = Ok (flat_map (rows_of_window (lane_band 10)) (map Z.of_nat (seq 0 9)),
        flat_map (rows_of_window (lane_band 330)) (map Z.of_nat (seq 0 9))) /\
  poly_search lanes_image (flat_line 10 true) (flat_line 330 true)
  = Ok (lane_band 10, lane_band 330).
Proof. split; vm_compute; reflexivity. Qed.

(** ** Cross-validation *)

Lemma np_min_fold (r : list Q) (x : Q) :
  let m := fold_left (fun m y => if Qlt_bool y m then y else m) r x in
  (m = x \/ In m r) /\ forall y, y = x \/ In y r -> m <= y.
Proof.
  revert x. induction r as [|z r IH]; intros x; cbn [fold_left].
  - split; [now left|]. intros y [->|[]]. apply Qle_refl.
  - cbv zeta in IH. destruct (IH (if Qlt_bool z x then z else x)) as [Hin Hle].
    split.
    + destruct Hin as [->|Hin]; [|right; now right].
      destruct (Qlt_bool z x); [right; now left|now left].
    + assert (Hx : (if Qlt_bool z x then z else x) <= x).
      { destruct (Qlt_bool z x) eqn:E; [|apply Qle_refl].
        apply Qlt_le_weak. now apply Qlt_bool_iff. }
      assert (Hz : (if Qlt_bool z x then z else x) <= z).
      { destruct (Qlt_bool z x) eqn:E; [apply Qle_refl|].
        now apply Qlt_bool_false_iff. }
      intros y [->|[->|Hy]].
      * eapply Qle_trans; [|exact Hx]. apply Hle. now left.
      * eapply Qle_trans; [|exact Hz]. apply Hle. now left.
      * apply Hle. now right.
Qed.

(** [np.min] returns an element of the array that is below all of them. *)
Lemma np_min_spec (l : list Q) (m : Q) :
  np_min l = Ok m -> In m l /\ forall y, In y l -> m <= y.
Proof.
  destruct l as [|x r]; [discriminate|]. cbn [np_min]. intros [= <-].
  destruct (np_min_fold r x) as [Hin Hle]. split.
  - destruct Hin as [->|Hin]; [now left|now right].
  - intros y [->|Hy]; apply Hle; [now left|now right].
Qed.

Lemma combine_map_same {A B C D : Type}
      (f : A -> B) (g : A -> C) (F : B * C -> D) (l : list A) :
  map F (combine (map f l) (map g l)) = map (fun a => F (f a, g a)) l.
Proof. induction l as [|a l IH]; [reflexivity|]. cbn. now rewrite IH. Qed.

(** The gap of two lines sampled over the same rows. *)
Lemma min_gap_sampled (l r : Line) (cl cr : poly) (h : nat) :
  fitx l = map (polyval cl) (linspace h) ->
  fitx r = map (polyval cr) (linspace h) ->
  min_gap l r
  = np_min (map (fun y => Qabs (polyval cr y - polyval cl y)) (linspace h)).
Proof.
  intros Hl Hr. unfold min_gap, np_sub. rewrite Hl, Hr, !length_map.
  rewrite Nat.eqb_refl. cbn [bind].
  now rewrite (combine_map_same (polyval cr) (polyval cl)), map_map.
Qed.

(** A line of [find_lane_pixels] before cross-validation: a valid one is
    sampled over the rows of the image, of which there is one at least. *)
Lemma new_line_cases {N : Numerics} (px : list (Z * Z)) (h : nat) (l : Line) :
  Line_init (map snd px) (map fst px) h true = Ok l ->
  wf_line l = true /\
  (valid_b l = true ->
   (0 < h)%nat /\ fitx l = map (polyval (coeffs_of l)) (linspace h)).
Proof.
  intros Hl. split; [exact (Line_init_wf _ _ _ _ _ Hl)|].
  destruct px as [|p px].
  - rewrite Line_init_empty in Hl by now left.
    injection Hl as <-. discriminate.
  - assert (Hx : map snd (p :: px) <> []) by discriminate.
    assert (Hy : map fst (p :: px) <> []) by discriminate.
    destruct (Line_init_returned _ _ _ _ _ Hx Hy Hl) as (Hlen & Hrow & Hh).
    rewrite (Line_init_fit _ _ _ _ Hx Hy Hlen Hrow Hh) in Hl.
    injection Hl as <-. intros _. split; [lia|reflexivity].
Qed.

(** C3.  The two lines that the constructor returned for the pixels of
    the two sides are checked against each other.  [isValid] returns on
    both.  If both are valid, their gap g is the smallest of the distances
    |right x(y) - left x(y)| between the two polynomials over the sampled
    rows y = 0 .. height-1; if g < 300 both lines are returned with
    [detected] false, and otherwise they are returned as fitted.  If one
    of them is invalid they are returned as fitted. *)
Theorem cross_validation_rule {N : Numerics}
        (left_px right_px : list (Z * Z)) (h : nat) (l r : Line) :
  Line_init (map snd left_px) (map fst left_px) h true = Ok l ->
  Line_init (map snd right_px) (map fst right_px) h true = Ok r ->
  (exists vl vr, isValid l = Ok vl /\ isValid r = Ok vr) /\
  (isValid l = Ok true -> isValid r = Ok true ->
   exists g cl cr,
     line_coefficients l = Some cl /\ line_coefficients r = Some cr /\
     min_gap l r = Ok g /\
     let x (c : poly) (y : nat) :=
       p0 c * inject_Z (Z.of_nat y) ^ 2 + p1 c * inject_Z (Z.of_nat y)
       + p2 c in
     (forall y, (y < h)%nat -> g <= Qabs (x cr y - x cl y)) /\
     (exists y, (y < h)%nat /\ g = Qabs (x cr y - x cl y)) /\
     (g < 300 ->
      fit_and_validate left_px right_px h
      = Ok (set_detected l false, set_detected r false) /\
      detected (set_detected l false) = false /\
      detected (set_detected r false) = false) /\
     (300 <= g -> fit_and_validate left_px right_px h = Ok (l, r))) /\
  (isValid l = Ok false \/ isValid r = Ok false ->
   fit_and_validate left_px right_px h = Ok (l, r)).
Proof.
  intros El Er.
  destruct (new_line_cases left_px h l El) as [Wl Fl].
  destruct (new_line_cases right_px h r Er) as [Wr Fr].
  pose proof (isValid_total l Wl) as Vl.
  pose proof (isValid_total r Wr) as Vr.
  split; [now exists (valid_b l), (valid_b r)|].
  unfold fit_and_validate. rewrite El, Er. cbn [bind].
  unfold cross_validate. split.
  - intros Hl Hr. rewrite Hl, Hr. cbn [bind andb].
    rewrite Hl in Vl. rewrite Hr in Vr.
    injection Vl as Vl. injection Vr as Vr.
    destruct (Fl (eq_sym Vl)) as [Hh Sl].
    destruct (Fr (eq_sym Vr)) as [_ Sr].
    rewrite (min_gap_sampled l r _ _ h Sl Sr).
    destruct (np_min _) as [g|e] eqn:Eg.
    2:{ destruct h; [lia|]. rewrite linspace_S, map_app in Eg.
        destruct (map _ (linspace h)); discriminate. }
    exists g, (coeffs_of l), (coeffs_of r).
    split; [apply valid_b_coeffs; congruence|].
    split; [apply valid_b_coeffs; congruence|].
    split; [reflexivity|]. cbv zeta.
    apply np_min_spec in Eg as [Hin Hle].
    split; [|split; [|split]].
    + intros y Hy. apply Hle. apply in_map_iff.
      exists (inject_Z (Z.of_nat y)). split; [reflexivity|].
      unfold linspace. apply in_map_iff. exists y.
      split; [reflexivity|]. apply in_seq. lia.
    + apply in_map_iff in Hin as [q [Hq Hin]].
      unfold linspace in Hin. apply in_map_iff in Hin as [y [Hy Hin]].
      apply in_seq in Hin. exists y. split; [lia|]. now subst.
    + intros Hg. apply Qlt_bool_iff in Hg. cbn [bind]. rewrite Hg.
      repeat split; reflexivity.
    + intros Hg. apply Qlt_bool_false_iff in Hg. cbn [bind]. now rewrite Hg.
  - intros [Hl|Hr].
    + rewrite Hl. reflexivity.
    + rewrite Vl, Hr. cbn [bind]. now destruct (valid_b l).
Qed.

(** The hand-written lines are the ones that the constructor builds. *)
Example sample_lines_built :
  Line_init (N := exact_numerics)
            (map snd (lane_band 10)) (map fst (lane_band 10)) 90 true
  = Ok (flat_line 10 true) /\
  Line_init (N := exact_numerics)
            (map snd (column 300)) (map fst (column 300)) 3 true
  = Ok (column_line 300) /\
  Line_init (N := exact_numerics) [] [] 90 true = Ok empty_line.
Proof. split; [|split]; vm_compute; reflexivity. Qed.

(** The line of a marking that starts at column 210. *)
Example close_line_built :
  Line_init (N := exact_numerics)
            (map snd (lane_band 210)) (map fst (lane_band 210)) 90 true
  = Ok (flat_line 210 true).
Proof. vm_compute. reflexivity. Qed.

(** Two markings 200 pixels apart: both lines are valid, their gap is
    200, and both are returned with [detected] false. *)
Lemma cross_validation_rule_witness :
  exists g,
    min_gap (flat_line 10 true) (flat_line 210 true) = Ok g /\
    g < 300 /\
    fit_and_validate (N := exact_numerics) (lane_band 10) (lane_band 210) 90
    = Ok (set_detected (flat_line 10 true) false,
          set_detected (flat_line 210 true) false).
Proof.
  destruct (cross_validation_rule (N := exact_numerics)
              (lane_band 10) (lane_band 210) 90
              (flat_line 10 true) (flat_line 210 true)
              (proj1 sample_lines_built) close_line_built)
    as [_ [Hboth _]].
  destruct Hboth as (g & cl & cr & _ & _ & Hg & _ & _ & Hclose & _).
  - vm_compute. reflexivity.
  - vm_compute. reflexivity.
  - exists g. split; [exact Hg|].
    assert (Hlt : g < 300).
    { vm_compute in Hg. injection Hg as <-. reflexivity. }
    split; [exact Hlt|]. exact (proj1 (Hclose Hlt)).
Defined.

(** Two markings 320 pixels apart are kept; two markings 200 pixels apart
    are both marked as not detected. *)
Example cross_validation_sample :
  fit_and_validate (N := exact_numerics) (lane_band 10) (lane_band 330) 90
  = Ok (flat_line 10 true, flat_line 330 true) /\
  fit_and_validate (N := exact_numerics) (lane_band 10) (lane_band 210) 90
  = Ok (flat_line 10 false, flat_line 210 false).
Proof. split; vm_compute; reflexivity. Qed.

(** ** The offset *)

Lemma round_half_even_comp (x y : Q) :
  x == y -> round_half_even x = round_half_even y.
Proof.
  intros Hxy. unfold round_half_even.
  rewrite (Qfloor_comp _ _ Hxy).
  assert (H : x - inject_Z (Qfloor y) == y - inject_Z (Qfloor y))
    by now rewrite Hxy.
  now rewrite (Qcompare_comp _ _ H (1 # 2) (1 # 2) (Qeq_refl _)).
Qed.

Lemma getLowestLinePoint_fit (l : Line) (c : poly) (h : nat) :
  fity l = linspace (S h) -> line_coefficients l = Some c ->
  getLowestLinePoint l = Ok (polyval c (inject_Z (Z.of_nat h))).
Proof.
  intros Hy Hc. unfold getLowestLinePoint.
  now rewrite Hy, np_max_linspace, Hc.
Qed.

Lemma round2_comp (x y : Q) : x == y -> round2 x = round2 y.
Proof.
  intros Hxy. unfold round2.
  rewrite (round_half_even_comp (x * 100) (y * 100)); [reflexivity|].
  now rewrite Hxy.
Qed.

(** Rounding moves a value by at most half a unit. *)
Lemma round_half_even_near (q : Q) :
  Qabs (inject_Z (round_half_even q) - q) <= 1 # 2.
Proof.
  unfold round_half_even.
  pose proof (Qfloor_le q) as Hlo.
  pose proof (Qlt_floor q) as Hhi.
  rewrite inject_Z_plus in Hhi. change (inject_Z 1) with 1 in Hhi.
  apply Qabs_Qle_condition.
  destruct (Qcompare (q - inject_Z (Qfloor q)) (1 # 2)) eqn:E.
  - apply Qeq_alt in E.
    destruct (Z.even (Qfloor q)); rewrite ?inject_Z_plus;
      change (inject_Z 1) with 1; split; lra.
  - apply Qlt_alt in E. split; lra.
  - apply Qgt_alt in E. rewrite inject_Z_plus.
    change (inject_Z 1) with 1. split; lra.
Qed.

Lemma round2_near (q : Q) : Qabs (round2 q - q) <= 1 # 200.
Proof.
  unfold round2.
  pose proof (round_half_even_near (q * 100)) as H.
  apply Qabs_Qle_condition in H. apply Qabs_Qle_condition.
  set (z := inject_Z (round_half_even (q * 100))) in *.
  assert (Hz : z / 100 == z * (1 # 100)) by (unfold Qdiv; reflexivity).
  rewrite Hz. split; lra.
Qed.

(** C8 (as amended).  For two lines that carry a fit and are sampled over
    the rows 0 .. h, the offset is the difference between the centre of
    the image (width/2) and the centre of the lane (the mean of the two
    polynomials at the last row h), times 3.7/700, rounded to two decimal
    places: it differs from the unrounded value by at most 0.005.  For
    bottom points 300 and 700 and width 1000 it is 0. *)
Theorem measure_offset_rounded
        (l r : Line) (cl cr : poly) (h width : nat) :
  fity l = linspace (S h) -> fity r = linspace (S h) ->
  line_coefficients l = Some cl -> line_coefficients r = Some cr ->
  let bottom_l := polyval cl (inject_Z (Z.of_nat h)) in
  let bottom_r := polyval cr (inject_Z (Z.of_nat h)) in
  let converted :=
    (inject_Z (Z.of_nat width) / 2 - (bottom_r + bottom_l) / 2)
    * (37 # 7000) in
  getLowestLinePoint l = Ok bottom_l /\
  getLowestLinePoint r = Ok bottom_r /\
  measure_offset l r width = Ok (round2 converted) /\
  Qabs (round2 converted - converted) <= 1 # 200 /\
  (bottom_l == 300 -> bottom_r == 700 -> width = 1000%nat ->
   round2 converted == 0).
Proof.
  intros Hyl Hyr Hcl Hcr. cbv zeta.
  pose proof (getLowestLinePoint_fit l cl h Hyl Hcl) as Hl.
  pose proof (getLowestLinePoint_fit r cr h Hyr Hcr) as Hr.
  split; [exact Hl|]. split; [exact Hr|].
  split; [|split].
  - unfold measure_offset. rewrite Hr, Hl. reflexivity.
  - apply round2_near.
  - intros El Er ->.
    rewrite (round2_comp _ 0); [reflexivity|].
    rewrite El, Er. reflexivity.
Qed.

Lemma measure_offset_rounded_witness :
  measure_offset (column_line 300) (column_line 700) 1000
  = Ok (round2 ((inject_Z (Z.of_nat 1000) / 2
                 - (polyval (Poly 0 0 (inject_Z 700)) (inject_Z (Z.of_nat 2))
                    + polyval (Poly 0 0 (inject_Z 300))
                              (inject_Z (Z.of_nat 2))) / 2)
                * (37 # 7000))) /\
  round2 ((inject_Z (Z.of_nat 1000) / 2
           - (polyval (Poly 0 0 (inject_Z 700)) (inject_Z (Z.of_nat 2))
              + polyval (Poly 0 0 (inject_Z 300)) (inject_Z (Z.of_nat 2))) / 2)
          * (37 # 7000)) == 0.
Proof.
  destruct (measure_offset_rounded
              (column_line 300) (column_line 700)
              (Poly 0 0 (inject_Z 300)) (Poly 0 0 (inject_Z 700)) 2 1000
              eq_refl eq_refl eq_refl eq_refl)
    as [_ [_ [Hoff [_ Hzero]]]].
  split; [exact Hoff|].
  apply Hzero; reflexivity.
Defined.

(** C8 (the claim as stated fails).  For the lines of two markings with
    bottom points 29.5 and 349.5 in an image of width 380, the converted
    difference is 0.5 * 3.7/700, about 0.0026, and the offset is 0. *)
Lemma measure_offset_not_converted :
  exists o xl xr,
    getLowestLinePoint (flat_line 10 true) = Ok xl /\
    getLowestLinePoint (flat_line 330 true) = Ok xr /\
    measure_offset (flat_line 10 true) (flat_line 330 true) 380 = Ok o /\
    ~ o == (inject_Z (Z.of_nat 380) / 2 - (xr + xl) / 2) * (37 # 7000).
Proof.
  eexists. eexists. eexists.
  split; [vm_compute; reflexivity|].
  split; [vm_compute; reflexivity|].
  split; [vm_compute; reflexivity|].
  vm_compute. discriminate.
Qed.

(** ** The exact solver *)

(** When the normal equations have a single solution, [lstsq2] returns
    it: its result is the least-squares parabola in exact arithmetic. *)
Lemma lstsq2_normal_equations (t v : list Q) :
  ~ gram_det t == 0 ->
  let c := lstsq2 t v in
  moment 4 t * p0 c + moment 3 t * p1 c + moment 2 t * p2 c == cross 2 t v /\
  moment 3 t * p0 c + moment 2 t * p1 c + moment 1 t * p2 c == cross 1 t v /\
  moment 2 t * p0 c + moment 1 t * p1 c + moment 0 t * p2 c == cross 0 t v.
Proof.
  intros Hd. cbv zeta. unfold lstsq2.
  destruct (Qeq_bool (gram_det t) 0) eqn:E.
  { apply Qeq_bool_iff in E. contradiction. }
  cbn [p0 p1 p2]. clear E. revert Hd.
  unfold gram_det, det3. rewrite !Qred_correct.
  generalize (moment 0 t) (moment 1 t) (moment 2 t) (moment 3 t)
             (moment 4 t) (cross 0 t v) (cross 1 t v) (cross 2 t v).
  intros s0 s1 s2 s3 s4 r0 r1 r2 Hd.
  repeat split; field; exact Hd.
Qed.

(** The samples used above determine their parabola. *)
Example sample_fits_determined :
  Qeq_bool (gram_det (map inject_Z (map fst steep_band))) 0 = false /\
  Qeq_bool (gram_det (map inject_Z (map fst (lane_band 10)))) 0 = false /\
  Qeq_bool (gram_det (map inject_Z (map fst (column 5)))) 0 = false /\
  Qeq_bool (gram_det (map (fun y => y * METERS_PER_PIXEL_Y) (linspace 3))) 0
  = false.
Proof. split; [|split; [|split]]; vm_compute; reflexivity. Qed.

(** With one or two abscissae the solver returns the least-squares
    parabola of least scaled norm: (1/192, 1/24, 1/3) for the single point
    (8, 1), and (1, 1, 3) for the two points (0, 3) and (1, 5). *)
Example lstsq2_underdetermined :
  lstsq2 [8] [1] = Poly (1 # 192) (1 # 24) (1 # 3) /\
  lstsq2 [0; 1] [3; 5] = Poly 1 1 3.
Proof. split; vm_compute; reflexivity. Qed.

(** ** More on the validity gate *)

(** X1.  A line with at most 3000 source pixels is invalid, whatever its
    slopes are (they are not read): the count has to exceed 3000. *)
Theorem isValid_needs_pixels (l : Line) :
  (length (lane_pixels_x l) <= MIN_PIXELS_FOR_VALID_LINE)%nat ->
  detected l = false \/ line_coefficients l <> None ->
  isValid l = Ok false.
Proof.
  intros Hn Hc. unfold isValid.
  destruct (detected l); cbn [negb]; [|reflexivity].
  destruct Hc as [Hc|Hc]; [discriminate|].
  destruct (line_coefficients l) as [c|]; [|congruence].
  cbn [attr bind]. change (poly_len c =? 3)%nat with true. cbn [negb].
  replace (_ <? _)%nat with false; [reflexivity|].
  symmetry. apply Nat.ltb_ge. exact Hn.
Qed.

Lemma isValid_needs_pixels_witness : isValid short_line = Ok false.
Proof.
  apply isValid_needs_pixels.
  - vm_compute. lia.
  - right. discriminate.
Defined.

(** The slope in the middle of the samples lies between the slopes at the
    two ends. *)
Lemma mid_slope_between (c : poly) (h : nat) (t : Q) :
  (0 < h)%nat ->
  slope_at c 0 < t ->
  slope_at c (inject_Z (Z.of_nat (h - 1))) < t ->
  slope_at c (inject_Z (Z.of_nat (h / 2))) < t.
Proof.
  intros Hh. unfold slope_at.
  assert (Hm : 0 <= inject_Z (Z.of_nat (h / 2))).
  { change 0 with (inject_Z 0). rewrite <- Zle_Qle. lia. }
  assert (Hml : inject_Z (Z.of_nat (h / 2)) <= inject_Z (Z.of_nat (h - 1))).
  { rewrite <- Zle_Qle. apply inj_le.
    destruct h as [|[|h]]; [lia|cbn; lia|].
    assert (S (S h) / 2 < S (S h))%nat by (apply Nat.div_lt; lia). lia. }
  set (m := inject_Z (Z.of_nat (h / 2))) in *.
  set (e := inject_Z (Z.of_nat (h - 1))) in *.
  intros Hu Hl.
  destruct (Qlt_le_dec (p0 c) 0) as [Ha|Ha].
  - assert (p0 c * m <= 0) by nra. lra.
  - assert (p0 c * m <= p0 c * e) by nra. lra.
Qed.

(** X2.  On a line that the constructor built with a fit, the gate is:
    detected, more than 3000 pixels, the slopes at the first and at the
    last row both below 1.2 (as signed numbers), and their difference
    below 1.2 in absolute value.  The test of the middle slope adds
    nothing. *)
Theorem isValid_constructed {N : Numerics}
        (xs ys : list Z) (h : nat) (d : bool) (l : Line) (c : poly) :
  Line_init xs ys h d = Ok l ->
  line_coefficients l = Some c ->
  isValid l = Ok true <->
  d = true /\
  (3000 < length xs)%nat /\
  Qabs (slope_at c 0 - slope_at c (inject_Z (Z.of_nat (h - 1)))) < 12 # 10 /\
  slope_at c 0 < 12 # 10 /\
  slope_at c (inject_Z (Z.of_nat (h - 1))) < 12 # 10.
Proof.
  intros Hl Hc.
  destruct xs as [|x xs].
  { rewrite Line_init_empty in Hl by now left.
    injection Hl as <-. discriminate. }
  destruct ys as [|y ys].
  { rewrite Line_init_empty in Hl by now right.
    injection Hl as <-. discriminate. }
  assert (Hx : x :: xs <> []) by discriminate.
  assert (Hy : y :: ys <> []) by discriminate.
  destruct (Line_init_returned _ _ _ _ _ Hx Hy Hl) as (Hlen & Hrow & Hh).
  rewrite (Line_init_fit _ _ _ _ Hx Hy Hlen Hrow Hh) in Hl.
  apply (f_equal (fun r => match r with Ok a => a | Raise _ => l end)) in Hl.
  cbv beta iota in Hl. subst l.
  cbn [line_coefficients] in Hc.
  apply (f_equal (fun o => match o with Some a => a | None => c end)) in Hc.
  cbv beta iota in Hc. subst c.
  etransitivity; [eapply isValid_true_iff; reflexivity|].
  cbn [detected lane_pixels_x].
  unfold SLOPE_TOLERANCE, MIN_PIXELS_FOR_VALID_LINE.
  split.
  - intros (H1 & H2 & H3 & H4 & _ & H6). repeat split; assumption.
  - intros (H1 & H2 & H3 & H4 & H5). repeat split; try assumption.
    apply mid_slope_between; [lia|exact H4|exact H5].
Qed.

Lemma isValid_constructed_witness :
  isValid (flat_line 10 true) = Ok true <->
  true = true /\
  (3000 < length (map snd (lane_band 10)))%nat /\
  Qabs (slope_at (Poly 0 0 (59 # 2)) 0
        - slope_at (Poly 0 0 (59 # 2)) (inject_Z (Z.of_nat (90 - 1))))
  < 12 # 10 /\
  slope_at (Poly 0 0 (59 # 2)) 0 < 12 # 10 /\
  slope_at (Poly 0 0 (59 # 2)) (inject_Z (Z.of_nat (90 - 1))) < 12 # 10.
Proof.
  apply (isValid_constructed (N := exact_numerics)
           (map snd (lane_band 10)) (map fst (lane_band 10)) 90 true).
  - exact (proj1 sample_lines_built).
  - reflexivity.
Defined.

(** X3.  The failures of the constructor.  It raises only for non-empty
    sequences: [TypeError] when their lengths differ (polyfit's check);
    [LinAlgError] when the lengths agree and every pixel lies in row 0
    (the first fit has no abscissa but zero); and, with a pixel off row 0,
    [ValueError] for height 0 (the maximum of an empty sample) and
    [LinAlgError] for height 1 (the second fit has the single abscissa
    0).  In every other case it returns a line. *)
Theorem Line_init_failures {N : Numerics}
        (xs ys : list Z) (h : nat) (d : bool) (e : exn) :
  Line_init xs ys h d = Raise e <->
  xs <> [] /\ ys <> [] /\
  ((length xs <> length ys /\ e = TypeError) \/
   (length xs = length ys /\ forallb (Z.eqb 0) ys = true /\
    e = LinAlgError) \/
   (length xs = length ys /\ forallb (Z.eqb 0) ys = false /\
    ((h = 0%nat /\ e = ValueError) \/ (h = 1%nat /\ e = LinAlgError)))).
Proof.
  destruct xs as [|x xs].
  { rewrite Line_init_empty by now left.
    split; [discriminate|]. intros [H _]. congruence. }
  destruct ys as [|y ys].
  { rewrite Line_init_empty by now right.
    split; [discriminate|]. intros [_ [H _]]. congruence. }
  assert (Hx : x :: xs <> []) by discriminate.
  assert (Hy : y :: ys <> []) by discriminate.
  destruct (Nat.eq_dec (length (x :: xs)) (length (y :: ys))) as [E|E].
  2:{ rewrite (Line_init_unequal _ _ _ _ Hx Hy E). split.
      - intros [= <-]. repeat split; try assumption. left. auto.
      - intros (_ & _ & [[_ ->]|[(H & _)|(H & _)]]);
          [reflexivity|contradiction|contradiction]. }
  destruct (forallb (Z.eqb 0) (y :: ys)) eqn:Hrow.
  { rewrite (Line_init_row0 _ _ _ _ Hx Hy E Hrow). split.
    - intros [= <-]. repeat split; try assumption. right. left. auto.
    - intros (_ & _ & [[H _]|[(_ & _ & ->)|(_ & H & _)]]);
        [contradiction|reflexivity|discriminate]. }
  destruct (Nat.lt_ge_cases h 2) as [Hh|Hh].
  - rewrite (Line_init_low _ _ _ _ Hx Hy E Hrow Hh). split.
    + intros [= <-]. repeat split; try assumption. right. right.
      repeat split; try assumption.
      destruct h as [|[|h]]; [left|right|lia]; auto.
    + intros (_ & _ & [[H _]|[(_ & H & _)|(_ & _ & [[-> ->]|[-> ->]])]]);
        [contradiction|discriminate|reflexivity|reflexivity].
  - rewrite (Line_init_fit _ _ _ _ Hx Hy E Hrow Hh). split; [discriminate|].
    intros (_ & _ & [[H _]|[(_ & H & _)|(_ & _ & [[-> _]|[-> _]])]]);
      [contradiction|discriminate|lia|lia].
Qed.

(** ** More on the searches *)

Lemma nonzero_In (img : image) (p : Z * Z) :
  In p (nonzero img) <->
  exists y x : nat,
    p = (Z.of_nat y, Z.of_nat x) /\
    (y < img_height img)%nat /\ (x < img_width img)%nat /\
    ~ pixel img y x == 0.
Proof.
  unfold nonzero. rewrite in_flat_map. split.
  - intros [y [Hy Hp]]. apply in_flat_map in Hp as [x [Hx Hp]].
    apply in_seq in Hy. apply in_seq in Hx.
    destruct (Qeq_bool (pixel img y x) 0) eqn:E; [destruct Hp|].
    destruct Hp as [<-|[]]. exists y, x.
    repeat split; try lia.
    intros H. apply Qeq_bool_iff in H. congruence.
  - intros [y [x [-> [Hy [Hx Hnz]]]]]. exists y.
    split; [apply in_seq; lia|].
    apply in_flat_map. exists x. split; [apply in_seq; lia|].
    destruct (Qeq_bool (pixel img y x) 0) eqn:E; [|now left].
    apply Qeq_bool_iff in E. contradiction.
Qed.

(** What the window loop adds to its two accumulators: pixels of the
    array, each from the rows of one of the windows. *)
Lemma slide_In (nz : list (Z * Z)) (H wh : Z) (windows : list nat) :
  forall (lc rc : Z) (la ra : list (Z * Z)) (p : Z * Z),
    In p (fst (slide nz H wh windows lc rc la ra)) \/
    In p (snd (slide nz H wh windows lc rc la ra)) ->
    In p la \/ In p ra \/
    (In p nz /\
     exists w, In w windows /\
               (H - (Z.of_nat w + 1) * wh <= fst p < H - Z.of_nat w * wh)%Z).
Proof.
  induction windows as [|w windows IH]; intros lc rc la ra p; cbn [slide].
  - cbn [fst snd]. tauto.
  - intros Hp. apply IH in Hp.
    assert (Hw : forall xl xh q,
               In q (filter (in_window (H - (Z.of_nat w + 1) * wh)
                                       (H - Z.of_nat w * wh) xl xh) nz) ->
               In q nz /\
               (H - (Z.of_nat w + 1) * wh <= fst q < H - Z.of_nat w * wh)%Z).
    { intros xl xh q Hq. apply filter_In in Hq as [Hq Hin].
      split; [exact Hq|]. unfold in_window in Hin.
      apply andb_true_iff in Hin as [Hin _].
      apply andb_true_iff in Hin as [Hin _].
      apply andb_true_iff in Hin as [H1 H2].
      apply Z.leb_le in H1. apply Z.ltb_lt in H2. lia. }
    destruct Hp as [Hp|[Hp|[Hp [w' [Hw' Hr]]]]].
    + apply in_app_or in Hp as [Hp|Hp]; [now left|].
      apply Hw in Hp as [Hp Hr]. right. right. split; [exact Hp|].
      exists w. split; [now left|exact Hr].
    + apply in_app_or in Hp as [Hp|Hp]; [right; now left|].
      apply Hw in Hp as [Hp Hr]. right. right. split; [exact Hp|].
      exists w. split; [now left|exact Hr].
    + right. right. split; [exact Hp|].
      exists w'. split; [now right|exact Hr].
Qed.

Lemma filter_none {A : Type} (f : A -> bool) (l : list A) :
  (forall a, f a = false) -> filter f l = [].
Proof.
  intros Hf. induction l as [|a l IH]; [reflexivity|].
  cbn [filter]. now rewrite Hf.
Qed.

(** Windows of height 0 select nothing. *)
Lemma slide_flat (nz : list (Z * Z)) (H : Z) (windows : list nat) :
  forall (lc rc : Z) (la ra : list (Z * Z)),
    slide nz H 0 windows lc rc la ra = (la, ra).
Proof.
  induction windows as [|w windows IH]; intros lc rc la ra; cbn [slide];
    [reflexivity|].
  assert (Hf : forall xl xh q,
             in_window (H - (Z.of_nat w + 1) * 0) (H - Z.of_nat w * 0)
                       xl xh q = false).
  { intros xl xh q. unfold in_window.
    destruct (H - (Z.of_nat w + 1) * 0 <=? fst q)%Z eqn:E1; [|reflexivity].
    destruct (fst q <? H - Z.of_nat w * 0)%Z eqn:E2; [|reflexivity].
    apply Z.leb_le in E1. apply Z.ltb_lt in E2. lia. }
  rewrite !(filter_none _ nz (Hf _ _)). cbn [length Nat.leb].
  rewrite !app_nil_r. apply IH.
Qed.

Lemma histogram_length (img : image) :
  length (histogram img) = img_width img.
Proof. unfold histogram. now rewrite length_map, length_seq. Qed.

Lemma np_argmax_ok (l : list Q) :
  l <> [] -> exists i, np_argmax l = Ok i.
Proof. destruct l; [congruence|]. intros _. eexists. reflexivity. Qed.

(** The pixels of the cold start are nonzero pixels of the image, each in
    the rows of one of the nine windows. *)
Lemma sliding_window_search_In (img : image) (lp rp : list (Z * Z))
      (p : Z * Z) :
  sliding_window_search img = Ok (lp, rp) ->
  In p lp \/ In p rp ->
  In p (nonzero img) /\
  (Z.of_nat (img_height img mod 9) <= fst p)%Z.
Proof.
  unfold sliding_window_search.
  destruct (np_argmax (firstn _ _)) as [lb|]; cbn [bind]; [|discriminate].
  destruct (np_argmax (skipn _ _)) as [rb|]; cbn [bind]; [|discriminate].
  intros Hs Hp.
  apply (f_equal (fun r => match r with Ok a => a | Raise _ => (lp, rp) end))
    in Hs. cbv beta iota in Hs.
  assert (Hp' : In p (fst (lp, rp)) \/ In p (snd (lp, rp))) by exact Hp.
  rewrite <- Hs in Hp'. apply slide_In in Hp'.
  destruct Hp' as [[]|[[]|[Hp' [w [Hw' Hr]]]]].
  split; [exact Hp'|].
  apply in_seq in Hw'. unfold nwindows in *.
  rewrite Nat2Z.inj_div in Hr. rewrite Nat2Z.inj_mod.
  change (Z.of_nat 9) with 9%Z in *.
  set (hz := Z.of_nat (img_height img)) in *.
  assert (Hq : (0 <= hz / 9)%Z) by (apply Z.div_pos; lia).
  assert (Hm : ((Z.of_nat w + 1) * (hz / 9) <= 9 * (hz / 9))%Z).
  { apply Z.mul_le_mono_nonneg_r; lia. }
  pose proof (Z.div_mod hz 9 ltac:(lia)) as Hdm.
  lia.
Qed.

(** X4.  The cold start fails, with [ValueError], exactly on images less
    than two columns wide (the left half of the histogram is empty).
    Otherwise it returns two pixel lists; every pixel in them is a nonzero
    pixel of the image in one of the nine windows, so the first
    [height mod 9] rows are never searched, and an image of less than nine
    rows yields no pixel at all. *)
Theorem sliding_window_search_outcome (img : image) :
  ((img_width img < 2)%nat ->
   sliding_window_search img = Raise ValueError) /\
  ((2 <= img_width img)%nat ->
   exists lp rp,
     sliding_window_search img = Ok (lp, rp) /\
     (forall p, In p lp \/ In p rp ->
                In p (nonzero img) /\
                (Z.of_nat (img_height img mod 9) <= fst p)%Z) /\
     ((img_height img < 9)%nat -> lp = [] /\ rp = [])).
Proof.
  unfold sliding_window_search. split.
  - intros Hw. rewrite histogram_length.
    replace (img_width img / 2)%nat with 0%nat; [reflexivity|].
    symmetry. apply Nat.div_small. exact Hw.
  - intros Hw.
    assert (Hmid : (0 < img_width img / 2 < img_width img)%nat).
    { split; [apply Nat.div_str_pos; lia|apply Nat.div_lt; lia]. }
    destruct (np_argmax_ok (firstn (length (histogram img) / 2)
                                   (histogram img))) as [lb Hlb].
    { intros E. apply (f_equal (@length Q)) in E.
      rewrite length_firstn, histogram_length in E. cbn [length] in E. lia. }
    destruct (np_argmax_ok (skipn (length (histogram img) / 2)
                                  (histogram img))) as [rb Hrb].
    { intros E. apply (f_equal (@length Q)) in E.
      rewrite length_skipn, histogram_length in E. cbn [length] in E. lia. }
    assert (Hs : exists lp rp, sliding_window_search img = Ok (lp, rp)).
    { unfold sliding_window_search. rewrite Hlb, Hrb. cbn [bind].
      eexists. eexists. now rewrite <- surjective_pairing. }
    destruct Hs as [lp [rp Hs]]. exists lp, rp.
    fold (sliding_window_search img). split; [exact Hs|]. split.
    + intros p Hp. exact (sliding_window_search_In img lp rp p Hs Hp).
    + intros Hh. revert Hs. unfold sliding_window_search, nwindows.
      rewrite Hlb, Hrb. cbn [bind].
      rewrite (Nat.div_small (img_height img) 9 Hh). cbn [Z.of_nat].
      rewrite slide_flat. intros [= <- <-]. split; reflexivity.
Qed.

Lemma sliding_window_search_outcome_witness :
  sliding_window_search (blank 720 1) = Raise ValueError.
Proof.
  apply (proj1 (sliding_window_search_outcome (blank 720 1))).
  vm_compute. lia.
Defined.

Lemma search_In (img : image) (pl pr : option Line) (lp rp : list (Z * Z))
      (p : Z * Z) :
  search img pl pr = Ok (lp, rp) ->
  In p lp \/ In p rp -> In p (nonzero img).
Proof.
  unfold search.
  destruct (cold_start pl pr) as [[|]|]; cbn [bind]; [| |discriminate].
  - intros Hs Hp. exact (proj1 (sliding_window_search_In img lp rp p Hs Hp)).
  - destruct pl as [l|]; [|discriminate].
    destruct pr as [r|]; [|discriminate].
    unfold poly_search.
    destruct (line_coefficients l); cbn [attr bind]; [|discriminate].
    destruct (line_coefficients r); cbn [attr bind]; [|discriminate].
    intros [= <- <-] [Hp|Hp]; apply filter_In in Hp; tauto.
Qed.

(** X5.  Whichever search is used, every pixel handed to the fits is a
    nonzero pixel inside the image: 0 <= y < height, 0 <= x < width. *)
Theorem search_pixels_in_image
        (img : image) (pl pr : option Line) (lp rp : list (Z * Z))
        (y x : Z) :
  search img pl pr = Ok (lp, rp) ->
  In (y, x) lp \/ In (y, x) rp ->
  (0 <= y < Z.of_nat (img_height img))%Z /\
  (0 <= x < Z.of_nat (img_width img))%Z /\
  ~ pixel img (Z.to_nat y) (Z.to_nat x) == 0.
Proof.
  intros Hs Hp. pose proof (search_In img pl pr lp rp (y, x) Hs Hp) as Hin.
  apply nonzero_In in Hin as [yn [xn [E [Hy [Hx Hnz]]]]].
  injection E as -> ->. rewrite !Nat2Z.id.
  repeat split; try lia. exact Hnz.
Qed.

Lemma search_pixels_in_image_witness :
  (0 <= 8 < Z.of_nat (img_height tiny_image))%Z /\
  (0 <= 1 < Z.of_nat (img_width tiny_image))%Z /\
  ~ pixel tiny_image (Z.to_nat 8) (Z.to_nat 1) == 0.
Proof.
  apply (search_pixels_in_image tiny_image None None [(8, 1)%Z] [(8, 1)%Z]).
  - vm_compute. reflexivity.
  - left. left. reflexivity.
Defined.

(** ** The lines of a frame *)

Lemma np_min_ok (l : list Q) : l <> [] -> exists m, np_min l = Ok m.
Proof. destruct l; [congruence|]. intros _. eexists. reflexivity. Qed.

Lemma linspace_map_nonempty {A : Type} (f : Q -> A) (h : nat) :
  (0 < h)%nat -> map f (linspace h) <> [].
Proof.
  destruct h as [|h]; [lia|]. intros _.
  rewrite linspace_S, map_app. destruct (map f (linspace h)); discriminate.
Qed.

(** The cross-validation of two lines that the constructor returned
    does not fail. *)
Lemma fit_and_validate_total {N : Numerics} (lp rp : list (Z * Z)) (h : nat)
      (l r : Line) :
  Line_init (map snd lp) (map fst lp) h true = Ok l ->
  Line_init (map snd rp) (map fst rp) h true = Ok r ->
  exists l' r', fit_and_validate lp rp h = Ok (l', r').
Proof.
  intros El Er.
  destruct (new_line_cases lp h l El) as [Wl Fl].
  destruct (new_line_cases rp h r Er) as [Wr Fr].
  unfold fit_and_validate. rewrite El, Er. cbn [bind].
  unfold cross_validate.
  rewrite (isValid_total l Wl). cbn [bind].
  destruct (valid_b l) eqn:Vl.
  - rewrite (isValid_total r Wr). cbn [bind andb].
    destruct (valid_b r) eqn:Vr.
    + destruct (Fl eq_refl) as [Hh Sl]. destruct (Fr eq_refl) as [_ Sr].
      rewrite (min_gap_sampled l r _ _ h Sl Sr).
      destruct (np_min_ok _ (linspace_map_nonempty
                               (fun y => Qabs (polyval (coeffs_of r) y
                                               - polyval (coeffs_of l) y))
                               h Hh)) as [g Hg].
      rewrite Hg. cbn [bind].
      destruct (Qlt_bool g 300); eexists; eexists; reflexivity.
    + eexists. eexists. reflexivity.
  - cbn [bind andb]. eexists. eexists. reflexivity.
Qed.

Lemma forallb_false_In {A : Type} (f : A -> bool) (l : list A) :
  forallb f l = false -> exists a, In a l /\ f a = false.
Proof.
  induction l as [|a l IH]; [discriminate|]. cbn [forallb].
  destruct (f a) eqn:E.
  - intros H. destruct (IH H) as [b [Hb Hf]]. exists b. split; [now right|auto].
  - intros _. exists a. split; [now left|exact E].
Qed.

Lemma forallb_rows (px : list (Z * Z)) :
  forallb (Z.eqb 0) (map fst px) = forallb (fun p => (0 =? fst p)%Z) px.
Proof. induction px as [|p px IH]; [reflexivity|]. cbn. now rewrite IH. Qed.

(** The constructor on the pixels of one side of an image: it fails
    exactly when there are pixels and all of them lie in row 0. *)
Lemma Line_init_pixels {N : Numerics} (px : list (Z * Z)) (h : nat) :
  (forall p, In p px -> (0 <= fst p < Z.of_nat h)%Z) ->
  if negb (length px =? 0)%nat && forallb (fun p => (0 =? fst p)%Z) px
  then Line_init (map snd px) (map fst px) h true = Raise LinAlgError
  else exists l, Line_init (map snd px) (map fst px) h true = Ok l.
Proof.
  intros Hin. destruct px as [|p px].
  { cbn. eexists. reflexivity. }
  assert (Hx : map snd (p :: px) <> []) by discriminate.
  assert (Hy : map fst (p :: px) <> []) by discriminate.
  assert (Hlen : length (map snd (p :: px)) = length (map fst (p :: px)))
    by now rewrite !length_map.
  change (negb (length (p :: px) =? 0)%nat) with true. cbn [andb].
  rewrite <- forallb_rows.
  destruct (forallb (Z.eqb 0) (map fst (p :: px))) eqn:Hrow.
  - now apply Line_init_row0.
  - eexists. apply Line_init_fit; try assumption.
    rewrite forallb_rows in Hrow.
    apply forallb_false_In in Hrow as [q [Hq Hz]].
    apply Z.eqb_neq in Hz. specialize (Hin q Hq). lia.
Qed.

Lemma nonzero_no_rows (img : image) :
  img_height img = 0%nat -> nonzero img = [].
Proof. unfold nonzero. now intros ->. Qed.

Lemma no_pixels {A : Type} (l : list A) :
  (forall a, In a l -> False) -> l = [].
Proof.
  destruct l as [|a l]; [reflexivity|].
  intros H. exfalso. apply (H a). now left.
Qed.

Lemma cold_start_total (pl pr : option Line) :
  (forall l, pl = Some l \/ pr = Some l -> wf_line l = true) ->
  exists b, cold_start pl pr = Ok b /\
            (b = false ->
             exists l r, pl = Some l /\ pr = Some r /\
                         valid_b l = true /\ valid_b r = true).
Proof.
  intros Hwf. unfold cold_start, missing_or_invalid.
  destruct pl as [l|].
  - rewrite (isValid_total l (Hwf l (or_introl eq_refl))). cbn [bind].
    destruct (valid_b l) eqn:Vl; cbn [negb].
    + destruct pr as [r|].
      * rewrite (isValid_total r (Hwf r (or_intror eq_refl))). cbn [bind].
        destruct (valid_b r) eqn:Vr; cbn [negb].
        -- exists false. split; [reflexivity|]. intros _.
           exists l, r. auto.
        -- exists true. split; [reflexivity|discriminate].
      * exists true. split; [reflexivity|discriminate].
    + exists true. split; [reflexivity|discriminate].
  - exists true. split; [reflexivity|discriminate].
Qed.

(** X6.  On an image at least two columns wide, with previous lines that
    are absent or well formed, the search of [find_lane_pixels] returns
    the pixels of the two sides.  If one side has pixels and all of them
    lie in row 0, the fit of that side raises [LinAlgError].  Otherwise
    [find_lane_pixels] returns two lines, and [isValid] returns on both of
    them.  This is the case whenever row 0 of the image is blank. *)
Theorem find_lane_pixels_returns {N : Numerics}
        (img : image) (pl pr : option Line) :
  (forall l, pl = Some l \/ pr = Some l -> wf_line l = true) ->
  (2 <= img_width img)%nat ->
  exists lp rp,
    search img pl pr = Ok (lp, rp) /\
    let row0_only (px : list (Z * Z)) :=
      negb (length px =? 0)%nat && forallb (fun p => (0 =? fst p)%Z) px in
    (row0_only lp || row0_only rp = true ->
     find_lane_pixels img pl pr = Raise LinAlgError) /\
    (row0_only lp || row0_only rp = false ->
     exists l r,
       find_lane_pixels img pl pr = Ok (l, r) /\
       isValid l = Ok (valid_b l) /\ isValid r = Ok (valid_b r)) /\
    ((forall x, (x < img_width img)%nat -> pixel img 0 x == 0) ->
     row0_only lp || row0_only rp = false).
Proof.
  intros Hwf Hw.
  assert (Hs : exists lp rp, search img pl pr = Ok (lp, rp)).
  { unfold search.
    destruct (cold_start_total pl pr Hwf) as [[|] [Hc Hwarm]];
      rewrite Hc; cbn [bind].
    - destruct (np_argmax_ok (firstn (length (histogram img) / 2)
                                     (histogram img))) as [lb Hlb].
      { intros E. apply (f_equal (@length Q)) in E.
        rewrite length_firstn, histogram_length in E. cbn [length] in E.
        assert (0 < img_width img / 2)%nat by (apply Nat.div_str_pos; lia).
        lia. }
      destruct (np_argmax_ok (skipn (length (histogram img) / 2)
                                    (histogram img))) as [rb Hrb].
      { intros E. apply (f_equal (@length Q)) in E.
        rewrite length_skipn, histogram_length in E. cbn [length] in E.
        assert (img_width img / 2 < img_width img)%nat
          by (apply Nat.div_lt; lia).
        lia. }
      unfold sliding_window_search. rewrite Hlb, Hrb. cbn [bind].
      eexists. eexists. now rewrite <- surjective_pairing.
    - destruct (Hwarm eq_refl) as [l [r [-> [-> [Vl Vr]]]]].
      unfold poly_search.
      rewrite (valid_b_coeffs l Vl), (valid_b_coeffs r Vr). cbn [attr bind].
      eexists. eexists. reflexivity. }
  destruct Hs as [lp [rp Hs]]. exists lp, rp. split; [exact Hs|]. cbv zeta.
  assert (Hpix : forall p, In p lp \/ In p rp ->
                           (0 <= fst p < Z.of_nat (img_height img))%Z /\
                           ~ pixel img (Z.to_nat (fst p)) (Z.to_nat (snd p))
                             == 0 /\
                           (Z.to_nat (snd p) < img_width img)%nat).
  { intros p Hp. pose proof (search_In img pl pr lp rp p Hs Hp) as Hin.
    apply nonzero_In in Hin as [yn [xn [-> [Hy [Hx Hnz]]]]].
    cbn [fst snd]. rewrite !Nat2Z.id. repeat split; try lia; assumption. }
  pose proof (Line_init_pixels lp (img_height img)
                (fun p Hp => proj1 (Hpix p (or_introl Hp)))) as Hl.
  pose proof (Line_init_pixels rp (img_height img)
                (fun p Hp => proj1 (Hpix p (or_intror Hp)))) as Hr.
  unfold find_lane_pixels. rewrite Hs. cbn [bind fst snd].
  split; [|split].
  - intros Hdeg. unfold fit_and_validate.
    destruct (negb (length lp =? 0)%nat
              && forallb (fun p => (0 =? fst p)%Z) lp).
    + now rewrite Hl.
    + destruct Hl as [l Hl]. rewrite Hl. cbn [bind].
      cbn [orb] in Hdeg. rewrite Hdeg in Hr. now rewrite Hr.
  - intros Hdeg. apply orb_false_iff in Hdeg as [Dl Dr].
    rewrite Dl in Hl. rewrite Dr in Hr.
    destruct Hl as [l0 Hl]. destruct Hr as [r0 Hr].
    destruct (fit_and_validate_total lp rp _ l0 r0 Hl Hr) as [l [r Hf]].
    exists l, r. split; [exact Hf|].
    destruct (fit_and_validate_wf lp rp (img_height img) l r Hf) as [Wl Wr].
    split; apply isValid_total; assumption.
  - intros Hblank.
    assert (Hno : forall px,
               (forall p, In p px -> In p lp \/ In p rp) ->
               negb (length px =? 0)%nat
               && forallb (fun p => (0 =? fst p)%Z) px = false).
    { intros [|p px] Hsub; [reflexivity|].
      change (negb (length (p :: px) =? 0)%nat) with true.
      cbn [andb forallb]. apply andb_false_iff. left.
      apply Z.eqb_neq. intros Hz.
      destruct (Hpix p (Hsub p (or_introl eq_refl))) as (_ & Hnz & Hx).
      apply Hnz. rewrite <- Hz. apply Hblank. exact Hx. }
    rewrite (Hno lp) by auto. rewrite (Hno rp) by auto. reflexivity.
Qed.

(** On the 9 x 4 image with one pixel, in row 8: both sides receive that
    pixel, and two lines are returned. *)
Lemma find_lane_pixels_returns_witness :
  exists l r,
    find_lane_pixels (N := exact_numerics) tiny_image None None = Ok (l, r) /\
    isValid l = Ok (valid_b l) /\ isValid r = Ok (valid_b r).
Proof.
  destruct (find_lane_pixels_returns (N := exact_numerics)
              tiny_image None None) as (lp & rp & Hs & _ & Hret & _).
  - intros l [H|H]; discriminate.
  - vm_compute. lia.
  - apply Hret. vm_compute in Hs. injection Hs as <- <-. reflexivity.
Defined.

(** X7.  Two valid lines returned for one frame are at least 300 pixels
    apart at every sampled row. *)
Theorem valid_pair_apart {N : Numerics}
        (img : image) (pl pr : option Line) (l r : Line) (y : nat) :
  find_lane_pixels img pl pr = Ok (l, r) ->
  isValid l = Ok true -> isValid r = Ok true ->
  (y < img_height img)%nat ->
  300 <= Qabs (polyval (coeffs_of r) (inject_Z (Z.of_nat y))
               - polyval (coeffs_of l) (inject_Z (Z.of_nat y))).
Proof.
  unfold find_lane_pixels.
  destruct (search img pl pr) as [[lp rp]|]; cbn [bind fst snd];
    [|discriminate].
  set (h := img_height img). intros Hf Hl Hr Hy.
  revert Hf. unfold fit_and_validate.
  destruct (Line_init (map snd lp) _ _ _) as [nl|] eqn:El; cbn [bind];
    [|discriminate].
  destruct (Line_init (map snd rp) _ _ _) as [nr|] eqn:Er; cbn [bind];
    [|discriminate].
  destruct (new_line_cases lp h nl El) as [Wl Fl].
  destruct (new_line_cases rp h nr Er) as [Wr Fr].
  unfold cross_validate.
  rewrite (isValid_total nl Wl). cbn [bind].
  destruct (valid_b nl) eqn:Vl.
  2:{ cbn [bind andb]. intros [= <- <-].
      rewrite (isValid_total nl Wl), Vl in Hl. discriminate. }
  rewrite (isValid_total nr Wr). cbn [bind andb].
  destruct (valid_b nr) eqn:Vr.
  2:{ cbn [bind andb]. intros [= <- <-].
      rewrite (isValid_total nr Wr), Vr in Hr. discriminate. }
  rewrite (min_gap_sampled nl nr _ _ h (proj2 (Fl eq_refl))
                           (proj2 (Fr eq_refl))).
  destruct (np_min _) as [g|] eqn:Eg; cbn [bind]; [|discriminate].
  destruct (Qlt_bool g 300) eqn:Hg.
  - intros [= <- <-]. rewrite isValid_not_detected in Hl by reflexivity.
    discriminate.
  - intros [= <- <-]. apply Qlt_bool_false_iff in Hg.
    apply np_min_spec in Eg as [_ Hle].
    eapply Qle_trans; [exact Hg|]. apply Hle.
    apply in_map_iff. exists (inject_Z (Z.of_nat y)). split; [reflexivity|].
    unfold linspace. apply in_map_iff. exists y.
    split; [reflexivity|]. apply in_seq. lia.
Qed.

Lemma valid_pair_apart_witness :
  300 <= Qabs (polyval (coeffs_of (flat_line 330 true))
                       (inject_Z (Z.of_nat 89))
               - polyval (coeffs_of (flat_line 10 true))
                         (inject_Z (Z.of_nat 89))).
Proof.
  apply (valid_pair_apart (N := exact_numerics) lanes_image
           (Some (flat_line 10 true)) (Some (flat_line 330 true))).
  - unfold find_lane_pixels, search.
    replace (cold_start (Some (flat_line 10 true))
                        (Some (flat_line 330 true)))
      with (@Ok bool false) by (vm_compute; reflexivity).
    cbn [bind]. rewrite (proj2 searches_on_lanes_image). cbn [bind fst snd].
    exact (proj1 cross_validation_sample).
  - vm_compute. reflexivity.
  - vm_compute. reflexivity.
  - vm_compute. lia.
Defined.

(** ** The run *)

Lemma valid_history_app (st : state) (f : Frame) (n : Z) (side : Side) :
  valid_history (mkState (FRAMES st ++ [f]) n) side
  = (if valid_b (side_line side f) then [side_line side f] else [])
      ++ valid_history st side.
Proof.
  unfold valid_history. cbn [FRAMES].
  rewrite map_app, rev_app_distr. cbn [map rev app filter].
  now destruct (valid_b (side_line side f)).
Qed.

Lemma valid_history_wf (st : state) (side : Side) (l : Line) :
  state_ok st = true -> In l (valid_history st side) ->
  wf_line l = true /\ valid_b l = true.
Proof.
  intros Hok Hl. apply state_ok_inv in Hok as [_ Hwf].
  unfold valid_history in Hl. apply filter_In in Hl as [Hl Hv].
  split; [|exact Hv].
  apply in_rev in Hl. apply in_map_iff in Hl as [f [<- Hf]].
  apply wf_side_line. rewrite forallb_forall in Hwf. now apply Hwf.
Qed.

Lemma current_line_spec (st : state) (side : Side) (l : Line) :
  state_ok st = true -> wf_line l = true ->
  current_line st side l
  = if valid_b l then Ok l
    else match valid_history st side with
         | [] => Raise IndexError
         | recent :: _ => Ok recent
         end.
Proof.
  intros Hok Hl. unfold current_line.
  rewrite (isValid_total l Hl). cbn [bind].
  destruct (valid_b l); cbn [negb]; [reflexivity|].
  rewrite (getLastValidLines_spec st side 1 Hok). cbn [bind].
  destruct (valid_history st side) as [|recent rest]; reflexivity.
Qed.

(** X8.  The line used for measuring: the line of the new frame if it is
    valid, otherwise the most recent valid line of that side, and
    [IndexError] if the history has none. *)
Theorem current_line_rule (st : state) (side : Side) (l : Line) :
  state_ok st = true -> wf_line l = true ->
  current_line st side l
  = if valid_b l then Ok l
    else match valid_history st side with
         | [] => Raise IndexError
         | recent :: _ => Ok recent
         end.
Proof. exact (current_line_spec st side l). Qed.

Lemma current_line_rule_witness :
  current_line sample_state RIGHT empty_line
  = if valid_b empty_line then Ok empty_line
    else match valid_history sample_state RIGHT with
         | [] => Raise IndexError
         | recent :: _ => Ok recent
         end.
Proof.
  apply (current_line_rule sample_state RIGHT empty_line).
  - vm_compute. reflexivity.
  - reflexivity.
Defined.

Lemma Line_init_sampled {N : Numerics} (xs ys : list Z) (h : nat) (d : bool)
      (l : Line) :
  Line_init xs ys h d = Ok l -> sampled l = true.
Proof.
  unfold Line_init.
  destruct (_ && _); [|now intros [= <-]].
  destruct (np_polyfit _ _) as [c|]; cbn [bind]; [|discriminate].
  unfold world_curvature.
  destruct h as [|h]; [discriminate|].
  destruct (np_max _); cbn [bind]; [|discriminate].
  destruct (np_polyfit _ _); cbn [bind]; [|discriminate].
  destruct (py_index _ 0) as [y0|]; cbn [bind]; [|discriminate].
  destruct (py_index _ (Z.of_nat (S h / 2))) as [y1|]; cbn [bind];
    [|discriminate].
  destruct (py_index _ (Z.of_nat (S h) - 1)) as [y2|]; cbn [bind];
    [|discriminate].
  intros [= <-]. unfold sampled. cbn [line_coefficients fity is_some implb].
  now rewrite linspace_length.
Qed.

Lemma cross_validate_sampled (l r l' r' : Line) :
  sampled l = true -> sampled r = true ->
  cross_validate l r = Ok (l', r') ->
  sampled l' = true /\ sampled r' = true.
Proof.
  intros Hl Hr. unfold cross_validate.
  destruct (isValid l) as [vl|]; cbn [bind]; [|discriminate].
  destruct (if vl then isValid r else Ok false) as [vr|]; cbn [bind];
    [|discriminate].
  destruct (if vl && vr then _ else _) as [[|]|]; cbn [bind];
    intros [= <- <-]; auto.
Qed.

Lemma detect_sampled {N : Numerics} (st : state) (n : Z) (img : image)
      (l r : Line) :
  detect st n img = Ok (l, r) -> sampled l = true /\ sampled r = true.
Proof.
  unfold detect, find_lane_pixels.
  destruct (if (0 <? n)%Z then _ else _) as [prev|]; cbn [bind];
    [|discriminate].
  destruct (search img _ _) as [px|]; cbn [bind]; [|discriminate].
  unfold fit_and_validate.
  destruct (Line_init (map snd (fst px)) _ _ _) as [nl|] eqn:El; cbn [bind];
    [|discriminate].
  destruct (Line_init (map snd (snd px)) _ _ _) as [nr|] eqn:Er; cbn [bind];
    [|discriminate].
  apply cross_validate_sampled; eapply Line_init_sampled; eassumption.
Qed.

Lemma state_good_inv (st : state) :
  state_good st = true ->
  state_ok st = true /\ forallb sampled_frame (FRAMES st) = true.
Proof. unfold state_good. intros H. now apply andb_true_iff in H. Qed.

Lemma numbered_app (frames : list Frame) (l r : Line) :
  numbered frames ->
  numbered (frames ++ [mkFrame (Z.of_nat (length frames)) l r]).
Proof.
  unfold numbered. intros H.
  rewrite map_app, length_app, H. cbn [map length frame_index].
  rewrite Nat.add_1_r, seq_S, map_app. reflexivity.
Qed.

(** A call whose detection step returns leaves a good, numbered state. *)
Lemma process_frame_good {N : Numerics} (st : state) (img : image)
      (l r : Line) :
  state_good st = true -> numbered (FRAMES st) ->
  detect st (frame_number st + 1) img = Ok (l, r) ->
  state_good (fst (process_frame st img)) = true /\
  numbered (FRAMES (fst (process_frame st img))).
Proof.
  intros Hg Hn Hd. apply state_good_inv in Hg as [Hok Hs].
  destruct (process_frame_appends st img l r Hok Hd) as [Hf Hok'].
  destruct (detect_sampled st _ img l r Hd) as [Sl Sr].
  split.
  - unfold state_good. rewrite Hok', Hf, forallb_app, Hs. cbn [forallb].
    unfold sampled_frame at 1. cbn [left_line right_line].
    now rewrite Sl, Sr.
  - rewrite Hf. apply state_ok_inv in Hok as [Hnum _].
    replace (frame_number st + 1)%Z with (Z.of_nat (length (FRAMES st)))
      by lia.
    now apply numbered_app.
Qed.

(** X9.  In every state of a run the counter is the index of the last
    record, the k-th record carries the frame number k, every recorded
    line with [detected] set carries its fit, and every line with
    coefficients has sample rows. *)
Theorem run_invariant {N : Numerics} (st : state) :
  reachable st ->
  frame_number st = (Z.of_nat (length (FRAMES st)) - 1)%Z /\
  map frame_index (FRAMES st) = map Z.of_nat (seq 0 (length (FRAMES st))) /\
  (forall f, In f (FRAMES st) ->
             wf_line (left_line f) = true /\ wf_line (right_line f) = true /\
             sampled (left_line f) = true /\ sampled (right_line f) = true).
Proof.
  intros Hr.
  assert (H : state_good st = true /\ numbered (FRAMES st)).
  { induction Hr as [|st img st' out _ [IHg IHn] Hstep].
    - split; reflexivity.
    - unfold process_frame in Hstep.
      destruct (detect st (frame_number st + 1) img) as [[l r]|] eqn:Hd;
        [|discriminate].
      destruct (process_frame_good st img l r IHg IHn Hd) as [Hg Hn].
      unfold process_frame in Hg, Hn. rewrite Hd in Hg, Hn.
      cbn [fst] in Hg, Hn. injection Hstep as <- _. now split. }
  destruct H as [Hg Hn]. apply state_good_inv in Hg as [Hok Hs].
  apply state_ok_inv in Hok as [Hnum Hwf].
  split; [exact Hnum|]. split; [exact Hn|].
  intros f Hf. rewrite forallb_forall in Hwf, Hs.
  pose proof (Hwf f Hf) as W. pose proof (Hs f Hf) as S.
  unfold wf_frame in W. unfold sampled_frame in S.
  apply andb_true_iff in W as [W1 W2]. apply andb_true_iff in S as [S1 S2].
  auto.
Qed.

Lemma result_value_ok {A : Type} (d : A) (r : result A) :
  is_ok r = true -> r = Ok (result_value d r).
Proof. destruct r; [reflexivity|discriminate]. Qed.

(** The first frame of the run on the image with curved markings
    returns. *)
Example first_frame_returns :
  process_frame (N := exact_numerics) initial_state curved_image
  = (after_first, Ok first_output).
Proof.
  transitivity
    (fst (process_frame (N := exact_numerics) initial_state curved_image),
     snd (process_frame (N := exact_numerics) initial_state curved_image)).
  - apply surjective_pairing.
  - unfold after_first, first_output.
    apply (f_equal (pair _)).
    apply result_value_ok. vm_compute. reflexivity.
Qed.

Lemma run_invariant_witness :
  frame_number after_first = (Z.of_nat (length (FRAMES after_first)) - 1)%Z /\
  map frame_index (FRAMES after_first)
  = map Z.of_nat (seq 0 (length (FRAMES after_first))) /\
  (forall f, In f (FRAMES after_first) ->
             wf_line (left_line f) = true /\ wf_line (right_line f) = true /\
             sampled (left_line f) = true /\ sampled (right_line f) = true).
Proof.
  apply (run_invariant (N := exact_numerics) after_first).
  apply (reach_step initial_state curved_image after_first first_output).
  - apply reach_init.
  - exact first_frame_returns.
Defined.

(** ** The outcome of a call *)

Lemma valid_b_detected (l : Line) : valid_b l = true -> detected l = true.
Proof.
  unfold valid_b, isValid. now destruct (detected l).
Qed.

Lemma valid_wf_curvature (l : Line) :
  wf_line l = true -> valid_b l = true -> curvature l = Some (curv_of l).
Proof.
  intros Hwf Hv. apply valid_b_detected in Hv.
  unfold wf_line, fitted in Hwf. rewrite Hv in Hwf. cbn [implb] in Hwf.
  unfold curv_of. destruct (curvature l); [reflexivity|].
  now rewrite !andb_false_r in Hwf.
Qed.

Lemma mapM_curvature (ls : list Line) :
  (forall l, In l ls -> wf_line l = true /\ valid_b l = true) ->
  mapM (fun l => attr (curvature l)) ls = Ok (map curv_of ls).
Proof.
  induction ls as [|l ls IH]; intros H; [reflexivity|].
  cbn [mapM map].
  destruct (H l (or_introl eq_refl)) as [Hw Hv].
  rewrite (valid_wf_curvature l Hw Hv). cbn [attr bind].
  rewrite IH; [reflexivity|]. intros l' Hl'. apply H. now right.
Qed.

Lemma firstn_In {A : Type} (n : nat) (l : list A) (a : A) :
  In a (firstn n l) -> In a l.
Proof.
  revert l. induction n as [|n IH]; intros [|b l]; cbn [firstn];
    try contradiction.
  intros [->|H]; [now left|right; now apply IH].
Qed.

Lemma valid_history_sampled (st : state) (side : Side) (l : Line) :
  forallb sampled_frame (FRAMES st) = true ->
  In l (valid_history st side) -> sampled l = true.
Proof.
  intros Hs Hl. unfold valid_history in Hl.
  apply filter_In in Hl as [Hl _]. apply in_rev in Hl.
  apply in_map_iff in Hl as [f [<- Hf]].
  rewrite forallb_forall in Hs. pose proof (Hs f Hf) as S.
  unfold sampled_frame in S. apply andb_true_iff in S.
  destruct side; cbn; tauto.
Qed.

Lemma lowest_point_ok (l : Line) :
  valid_b l = true -> sampled l = true ->
  exists x, getLowestLinePoint l = Ok x.
Proof.
  intros Hv Hs. unfold getLowestLinePoint.
  pose proof (valid_b_coeffs l Hv) as Hc.
  unfold sampled in Hs. rewrite Hc in Hs. cbn [is_some implb] in Hs.
  destruct (fity l) as [|y ys]; [discriminate|].
  cbn [np_max bind]. rewrite Hc. eexists. reflexivity.
Qed.

Lemma measure_offset_ok (l r : Line) (w : nat) :
  valid_b l = true -> sampled l = true ->
  valid_b r = true -> sampled r = true ->
  exists off, measure_offset l r w = Ok off.
Proof.
  intros Vl Sl Vr Sr.
  destruct (lowest_point_ok l Vl Sl) as [xl Hl].
  destruct (lowest_point_ok r Vr Sr) as [xr Hr].
  unfold measure_offset. rewrite Hr, Hl. eexists. reflexivity.
Qed.

(** X10.  After the new frame has been recorded, the call fails with
    [IndexError] if one side has no valid line in the history (the new
    frame included).  Otherwise the offset is measured between the most
    recent valid lines of the two sides, the averaged coefficients and the
    curvature are taken over the (at most seven) most recent valid lines of
    each side, and the call returns unless the mean curvature cannot be
    converted to an integer. *)
Theorem process_frame_outcome {N : Numerics}
        (st : state) (img : image) (l r : Line) :
  state_good st = true ->
  detect st (frame_number st + 1) img = Ok (l, r) ->
  let st' := fst (process_frame st img) in
  let res := snd (process_frame st img) in
  FRAMES st' = FRAMES st ++ [mkFrame (frame_number st + 1) l r] /\
  (valid_history st' LEFT = [] \/ valid_history st' RIGHT = [] ->
   res = Raise IndexError) /\
  (forall cl vl cr vr,
      valid_history st' LEFT = cl :: vl ->
      valid_history st' RIGHT = cr :: vr ->
      exists off,
        measure_offset cl cr (img_width img) = Ok off /\
        res = (c <- py_int (np_mean (map curv_of (firstn 7 (cl :: vl)
                                                  ++ firstn 7 (cr :: vr)))) ;;
               Ok (mkOutput (np_mean_axis0 (map coeffs_of (firstn 7 (cl :: vl))))
                            (np_mean_axis0 (map coeffs_of (firstn 7 (cr :: vr))))
                            c off))).
Proof.
  intros Hg Hd. cbv zeta.
  apply state_good_inv in Hg as [Hok Hs].
  destruct (process_frame_appends st img l r Hok Hd) as [Hf Hok'].
  destruct (detect_wf st _ img l r Hd) as [Wl Wr].
  destruct (detect_sampled st _ img l r Hd) as [Sl Sr].
  split; [exact Hf|].
  revert Hf Hok'. unfold process_frame. rewrite Hd. cbn [fst snd].
  set (frame := mkFrame (frame_number st + 1) l r).
  set (st' := mkState (FRAMES st ++ [frame]) (frame_number st + 1)).
  intros _ Hok'.
  assert (Hs' : forallb sampled_frame (FRAMES st') = true).
  { unfold st'. cbn [FRAMES]. rewrite forallb_app, Hs. cbn [forallb].
    unfold sampled_frame, frame. cbn [left_line right_line].
    now rewrite Sl, Sr. }
  assert (HL : current_line st' LEFT l
               = match valid_history st' LEFT with
                 | [] => Raise IndexError
                 | recent :: _ => Ok recent
                 end).
  { rewrite (current_line_spec st' LEFT l Hok' Wl).
    destruct (valid_b l) eqn:Vl; [|reflexivity].
    unfold st'. rewrite valid_history_app. unfold frame. cbn [side_line left_line].
    now rewrite Vl. }
  assert (HR : current_line st' RIGHT r
               = match valid_history st' RIGHT with
                 | [] => Raise IndexError
                 | recent :: _ => Ok recent
                 end).
  { rewrite (current_line_spec st' RIGHT r Hok' Wr).
    destruct (valid_b r) eqn:Vr; [|reflexivity].
    unfold st'. rewrite valid_history_app. unfold frame. cbn [side_line right_line].
    now rewrite Vr. }
  unfold report.
  change (left_line frame) with l. change (right_line frame) with r.
  rewrite HL, HR. split.
  - intros E.
    destruct (valid_history st' LEFT) as [|cl vl]; [reflexivity|].
    destruct E as [E|E]; [discriminate|]. cbn [bind].
    destruct (valid_history st' RIGHT); [reflexivity|discriminate].
  - intros cl vl cr vr EL ER.
    assert (FL : forallb valid_b (cl :: vl) = true)
      by (rewrite <- EL; apply forallb_filter).
    assert (FR : forallb valid_b (cr :: vr) = true)
      by (rewrite <- ER; apply forallb_filter).
    assert (Hcl : In cl (valid_history st' LEFT)) by (rewrite EL; now left).
    assert (Hcr : In cr (valid_history st' RIGHT)) by (rewrite ER; now left).
    assert (WL : forall x, In x (cl :: vl) ->
                           wf_line x = true /\ valid_b x = true).
    { intros x Hx. apply (valid_history_wf st' LEFT x Hok').
      now rewrite EL. }
    assert (WR : forall x, In x (cr :: vr) ->
                           wf_line x = true /\ valid_b x = true).
    { intros x Hx. apply (valid_history_wf st' RIGHT x Hok').
      now rewrite ER. }
    pose proof (valid_history_sampled st' LEFT cl Hs' Hcl) as SL.
    pose proof (valid_history_sampled st' RIGHT cr Hs' Hcr) as SR.
    rewrite (getLastValidLines_spec st' LEFT _ Hok').
    rewrite (getLastValidLines_spec st' RIGHT _ Hok').
    destruct (valid_history st' LEFT) as [|cl' vl']; [discriminate|].
    injection EL as -> ->.
    destruct (valid_history st' RIGHT) as [|cr' vr']; [discriminate|].
    injection ER as -> ->.
    cbn [bind]. unfold AVERAGE_OVER_X_FRAMES.
    rewrite (mapM_coeffs _ (forallb_firstn valid_b 7 _ FL)).
    rewrite (mapM_coeffs _ (forallb_firstn valid_b 7 _ FR)). cbn [bind].
    rewrite mapM_curvature.
    2:{ intros x Hx. apply in_app_or in Hx as [Hx|Hx];
          apply firstn_In in Hx; auto. }
    cbn [bind].
    destruct (measure_offset_ok cl cr (img_width img)
                (proj2 (WL cl (or_introl eq_refl))) SL
                (proj2 (WR cr (or_introl eq_refl))) SR) as [off Hoff].
    exists off. split; [exact Hoff|].
    destruct (py_int _); cbn [bind]; [|reflexivity].
    now rewrite Hoff.
Qed.

Lemma process_frame_outcome_witness :
  snd (process_frame (N := exact_numerics) initial_state (blank 9 2))
  = Raise IndexError.
Proof.
  destruct (process_frame_outcome (N := exact_numerics)
              initial_state (blank 9 2) empty_line empty_line)
    as [_ [Hfail _]].
  - reflexivity.
  - vm_compute. reflexivity.
  - apply Hfail. left. vm_compute. reflexivity.
Defined.

(** ** The sign of the offset *)

Lemma round_half_even_sign (q : Q) :
  ((0 < round_half_even q)%Z -> 0 < q) /\
  ((round_half_even q < 0)%Z -> q < 0).
Proof.
  pose proof (round_half_even_near q) as H.
  apply Qabs_Qle_condition in H. destruct H as [H1 H2].
  split; intros Hz.
  - assert (Hq : 1 <= inject_Z (round_half_even q)).
    { change 1 with (inject_Z 1). rewrite <- Zle_Qle. lia. }
    lra.
  - assert (Hq : inject_Z (round_half_even q) <= -1).
    { change (-1) with (inject_Z (-1)). rewrite <- Zle_Qle. lia. }
    lra.
Qed.

Lemma round2_sign (q : Q) :
  (0 < round2 q -> 0 < q) /\ (round2 q < 0 -> q < 0).
Proof.
  unfold round2.
  set (z := round_half_even (q * 100)).
  assert (Hz : inject_Z z / 100 == inject_Z z * (1 # 100))
    by (unfold Qdiv; reflexivity).
  destruct (round_half_even_sign (q * 100)) as [Hp Hn]. fold z in Hp, Hn.
  split; intros H; rewrite Hz in H.
  - assert (0 < inject_Z z) by lra.
    assert (0 < z)%Z by (rewrite Zlt_Qlt; assumption).
    specialize (Hp ltac:(assumption)). lra.
  - assert (inject_Z z < 0) by lra.
    assert (z < 0)%Z by (rewrite Zlt_Qlt; assumption).
    specialize (Hn ltac:(assumption)). lra.
Qed.

(** X11.  The sign of the offset: a positive offset means that the centre
    of the lane (the mean of the two bottom points) is left of the centre
    of the image, a negative one that it is right of it.  The two lines
    enter symmetrically: exchanging them gives the same offset. *)
Theorem measure_offset_sign (l r : Line) (width : nat) (off : Q) :
  measure_offset l r width = Ok off ->
  exists xl xr,
    getLowestLinePoint l = Ok xl /\ getLowestLinePoint r = Ok xr /\
    (0 < off -> (xr + xl) / 2 < inject_Z (Z.of_nat width) / 2) /\
    (off < 0 -> inject_Z (Z.of_nat width) / 2 < (xr + xl) / 2) /\
    measure_offset r l width = Ok off.
Proof.
  unfold measure_offset.
  destruct (getLowestLinePoint r) as [xr|]; cbn [bind]; [|discriminate].
  destruct (getLowestLinePoint l) as [xl|]; cbn [bind]; [|discriminate].
  intros [= <-]. exists xl, xr.
  split; [reflexivity|]. split; [reflexivity|].
  set (c := inject_Z (Z.of_nat width) / 2).
  set (m := (xr + xl) / 2).
  destruct (round2_sign ((c - m) * METERS_PER_PIXEL_X)) as [Hp Hn].
  unfold METERS_PER_PIXEL_X in *.
  split; [|split].
  - intros H. specialize (Hp H). lra.
  - intros H. specialize (Hn H). lra.
  - f_equal. apply round2_comp. unfold m.
    assert (E : (xl + xr) / 2 == (xr + xl) / 2) by (unfold Qdiv; ring).
    now rewrite E.
Qed.

Lemma measure_offset_sign_witness :
  exists xl xr,
    getLowestLinePoint (column_line 300) = Ok xl /\
    getLowestLinePoint (column_line 500) = Ok xr /\
    (0 < 0.53 -> (xr + xl) / 2 < inject_Z (Z.of_nat 1000) / 2) /\
    (0.53 < 0 -> inject_Z (Z.of_nat 1000) / 2 < (xr + xl) / 2) /\
    measure_offset (column_line 500) (column_line 300) 1000 = Ok 0.53.
Proof.
  apply (measure_offset_sign (column_line 300) (column_line 500) 1000 0.53).
  vm_compute. reflexivity.
Defined.

(** ** The polygon of the lane *)

Lemma combine_map_l {A B : Type} (f : A -> B) (l : list A) :
  combine (map f l) l = map (fun a => (f a, a)) l.
Proof. induction l as [|a l IH]; [reflexivity|]. cbn. now rewrite IH. Qed.

Lemma np_int_inject (z : Z) : np_int (inject_Z z) = z.
Proof. unfold np_int. cbn. apply Z.quot_1_r. Qed.

(** X12.  The polygon that [fillLane] fills has two vertices per *column*
    of the frame: [undist.shape] is unpacked as [width, height, _], so the
    sampled rows are 0 .. columns-1.  Its first half runs down the left
    polynomial, (left x(i), i) for i = 0, 1, ..., and its second half runs
    back up the right one, from the last sampled row to row 0; the
    coordinates are truncated to integers. *)
Theorem fill_points_vertices (avg_left avg_right : poly) (rows cols i : nat) :
  (i < cols)%nat ->
  length (fill_points avg_left avg_right (rows, cols)) = (2 * cols)%nat /\
  nth_error (fill_points avg_left avg_right (rows, cols)) i
  = Some (np_int (polyval avg_left (inject_Z (Z.of_nat i))), Z.of_nat i) /\
  nth_error (fill_points avg_left avg_right (rows, cols)) (cols + i)
  = Some (np_int (polyval avg_right (inject_Z (Z.of_nat (cols - 1 - i)))),
          Z.of_nat (cols - 1 - i)).
Proof.
  intros Hi. unfold fill_points. cbn [fst snd].
  rewrite !combine_map_l, map_app, map_rev, !map_map. cbn [fst snd].
  split; [|split].
  - rewrite length_app, length_rev, !length_map, linspace_length. lia.
  - rewrite nth_error_app1 by (rewrite length_map, linspace_length; lia).
    rewrite nth_error_map, (linspace_nth cols i Hi). cbn [option_map].
    now rewrite np_int_inject.
  - rewrite nth_error_app2 by (rewrite length_map, linspace_length; lia).
    rewrite length_map, linspace_length.
    replace (cols + i - cols)%nat with i by lia.
    rewrite nth_error_rev, length_map, linspace_length.
    apply Nat.ltb_lt in Hi. rewrite Hi. apply Nat.ltb_lt in Hi.
    replace (cols - S i)%nat with (cols - 1 - i)%nat by lia.
    rewrite nth_error_map, (linspace_nth cols (cols - 1 - i)) by lia.
    cbn [option_map]. now rewrite np_int_inject.
Qed.

Lemma fill_points_vertices_witness :
  length (fill_points (Poly 0 0 100) (Poly 0 0 500) (720, 1280)%nat)
  = (2 * 1280)%nat /\
  nth_error (fill_points (Poly 0 0 100) (Poly 0 0 500) (720, 1280)%nat) 1279
  = Some (np_int (polyval (Poly 0 0 100) (inject_Z (Z.of_nat 1279))),
          Z.of_nat 1279) /\
  nth_error (fill_points (Poly 0 0 100) (Poly 0 0 500) (720, 1280)%nat)
            (1280 + 1279)
  = Some (np_int (polyval (Poly 0 0 500)
                          (inject_Z (Z.of_nat (1280 - 1 - 1279)))),
          Z.of_nat (1280 - 1 - 1279)).
Proof.
  apply (fill_points_vertices (Poly 0 0 100) (Poly 0 0 500) 720 1280 1279).
  lia.
Defined.

(** ** The thresholded mask *)

Lemma block_index (bw j x : nat) :
  (0 < bw)%nat ->
  ((bw * j <=? x) && (x <? bw * (j + 1)))%nat = (j =? x / bw)%nat.
Proof.
  intros Hb. apply eq_true_iff_eq.
  rewrite andb_true_iff, Nat.leb_le, Nat.ltb_lt, Nat.eqb_eq. split.
  - intros [H1 H2]. apply Nat.div_unique with (r := (x - bw * j)%nat); lia.
  - intros ->. pose proof (Nat.div_mod_eq x bw) as E.
    pose proof (Nat.mod_upper_bound x bw ltac:(lia)) as U.
    split; lia.
Qed.

Lemma existsb_seq (q n : nat) :
  existsb (fun j => (j =? q)%nat) (seq 0 n) = (q <? n)%nat.
Proof.
  apply eq_true_iff_eq. rewrite existsb_exists, Nat.ltb_lt. split.
  - intros [j [Hj E]]. apply in_seq in Hj. apply Nat.eqb_eq in E. lia.
  - intros H. exists q. split; [apply in_seq; lia|apply Nat.eqb_refl].
Qed.

(** One row of blocks: the pixels of the blocks written are replaced, the
    others are kept. *)
Lemma row_pass (f : nat -> nat -> nat -> Q) (y0 y1 bw : nat) :
  (0 < bw)%nat ->
  forall (js : list nat) (out : nat -> nat -> Q) (y x : nat),
    fold_left (fun out j =>
                 assign_block out y0 y1 (bw * j) (bw * (j + 1)) (f j))
              js out y x
    = if ((y0 <=? y) && (y <? y1))%nat
         && existsb (fun j => (j =? x / bw)%nat) js
      then f (x / bw)%nat y x else out y x.
Proof.
  intros Hb. induction js as [|j js IH]; intros out y x; cbn [fold_left].
  - cbn [existsb]. now rewrite andb_false_r.
  - rewrite IH. unfold assign_block. cbn [existsb].
    rewrite <- !andb_assoc, (block_index bw j x Hb).
    destruct ((y0 <=? y)%nat); cbn [andb]; [|reflexivity].
    destruct ((y <? y1)%nat); cbn [andb]; [|reflexivity].
    destruct (j =? x / bw)%nat eqn:E;
      destruct (existsb _ js); cbn [orb]; try reflexivity.
    apply Nat.eqb_eq in E. now subst j.
Qed.

Lemma block_pass (g : nat -> nat -> nat -> nat -> Q) (bh bw n : nat) :
  (0 < bh)%nat -> (0 < bw)%nat ->
  forall (rows : list nat) (out : nat -> nat -> Q) (y x : nat),
    fold_left
      (fun out i =>
         fold_left (fun out j =>
                      assign_block out (bh * i) (bh * (i + 1))
                                   (bw * j) (bw * (j + 1)) (g i j))
                   (seq 0 n) out)
      rows out y x
    = if existsb (fun i => (i =? y / bh)%nat) rows && (x / bw <? n)%nat
      then g (y / bh)%nat (x / bw)%nat y x else out y x.
Proof.
  intros Hh Hw. induction rows as [|i rows IH]; intros out y x;
    cbn [fold_left].
  - reflexivity.
  - rewrite IH. cbn [existsb].
    rewrite (row_pass (g i) (bh * i) (bh * (i + 1)) bw Hw).
    rewrite (block_index bh i y Hh), existsb_seq.
    destruct (i =? y / bh)%nat eqn:E;
      destruct (existsb _ rows); destruct (x / bw <? n)%nat;
      cbn [orb andb]; try reflexivity.
    apply Nat.eqb_eq in E. now subst i.
Qed.

Lemma div_lt_blocks (n b k : nat) :
  (0 < b)%nat -> (n / b <? k)%nat = (n <? k * b)%nat.
Proof.
  intros Hb. apply eq_true_iff_eq. rewrite !Nat.ltb_lt.
  pose proof (Nat.div_mod_eq n b) as E.
  pose proof (Nat.mod_upper_bound n b ltac:(lia)) as U.
  split; intros H.
  - assert (S (n / b) <= k)%nat by lia.
    assert (b * S (n / b) <= b * k)%nat by (apply Nat.mul_le_mono_l; lia).
    lia.
  - apply Nat.Div0.div_lt_upper_bound. lia.
Qed.

(** X13.  [threshold_image] fails on frames of fewer than 9 rows or 20
    columns.  Otherwise it returns a mask of the size of the frame whose
    pixels are 0 or 1; the rows from 9 * (h // 9) on and the columns from
    20 * (w // 20) on stay 0; and a pixel of block (i, j) = (y // (h // 9),
    x // (w // 20)) is 1 exactly when its b value or its L value lies in
    the threshold interval chosen for that block (the low-contrast
    intervals if the mean gray level of the block is below the contrast
    threshold): the blocks do not overwrite one another. *)
Theorem threshold_image_mask
        (cfg : thresholds) (ch : channels) (h w : nat) :
  ((h < 9)%nat \/ (w < 20)%nat -> threshold_image cfg ch h w = None) /\
  ((9 <= h)%nat -> (20 <= w)%nat ->
   exists img,
     threshold_image cfg ch h w = Some img /\
     img_height img = h /\ img_width img = w /\
     forall y x : nat,
       (pixel img y x = 0 \/ pixel img y x = 1) /\
       ((9 * (h / 9) <= y)%nat \/ (20 * (w / 20) <= x)%nat ->
        pixel img y x = 0) /\
       ((y < 9 * (h / 9))%nat -> (x < 20 * (w / 20))%nat ->
        pixel img y x
        = combined cfg ch (h / 9) (w / 20) (y / (h / 9)) (x / (w / 20)) y x)).
Proof.
  unfold threshold_image, splits_y, splits_x. split.
  - intros [H|H].
    + now rewrite (Nat.div_small h 9 H).
    + rewrite (Nat.div_small w 20 H). now rewrite orb_true_r.
  - intros Hh Hw.
    assert (Bh : (0 < h / 9)%nat) by (apply Nat.div_str_pos; lia).
    assert (Bw : (0 < w / 20)%nat) by (apply Nat.div_str_pos; lia).
    destruct (h / 9 =? 0)%nat eqn:E1; [apply Nat.eqb_eq in E1; lia|].
    destruct (w / 20 =? 0)%nat eqn:E2; [apply Nat.eqb_eq in E2; lia|].
    cbn [orb]. eexists. split; [reflexivity|].
    cbn [img_height img_width pixel].
    split; [reflexivity|]. split; [reflexivity|].
    intros y x.
    rewrite (block_pass (combined cfg ch (h / 9) (w / 20))
                        (h / 9) (w / 20) 20 Bh Bw).
    rewrite existsb_seq, !div_lt_blocks by assumption.
    split; [|split].
    + destruct (_ && _); [|now left].
      unfold combined. destruct (_ || _); [now right|now left].
    + intros [H|H].
      * replace (y <? 9 * (h / 9))%nat with false; [reflexivity|].
        symmetry. apply Nat.ltb_ge. exact H.
      * replace (x <? 20 * (w / 20))%nat with false;
          [now rewrite andb_false_r|].
        symmetry. apply Nat.ltb_ge. exact H.
    + intros Hy Hx. apply Nat.ltb_lt in Hy, Hx. now rewrite Hy, Hx.
Qed.

Lemma threshold_image_mask_witness :
  exists img,
    threshold_image sample_thresholds sample_channels 725 1290 = Some img /\
    img_height img = 725%nat /\ img_width img = 1290%nat /\
    (pixel img 723 5 = 0 \/ pixel img 723 5 = 1) /\
    ((9 * (725 / 9) <= 723)%nat \/ (20 * (1290 / 20) <= 5)%nat ->
     pixel img 723 5 = 0).
Proof.
  destruct (proj2 (threshold_image_mask sample_thresholds sample_channels
                                        725 1290))
    as [img [H1 [H2 [H3 H4]]]].
  - lia.
  - lia.
  - exists img. destruct (H4 723%nat 5%nat) as [Ha [Hb _]]. auto.
Defined.

(** ** The cached transform *)

(** X14.  The perspective matrices are computed once: after any call of
    [getPerspectiveTransform] the cache holds a forward matrix, the call
    returned the two cached matrices, and every later call, and every
    later [warp_image], uses these same matrices and leaves the cache as
    it is, whatever source points and image size it is given.  A first
    call computes them from the source points scaled by (w, h) and from
    the rectangle with the x of the first and of the last source point
    and the y values h and 0. *)
Theorem perspective_cached
        (matrix : Type)
        (cv2_get : list (Q * Q) -> list (Q * Q) -> matrix)
        (c c1 : transform_cache matrix)
        (src : (Q * Q) * (Q * Q) * (Q * Q) * (Q * Q)) (w h : nat)
        (ms : option matrix * option matrix) :
  getPerspectiveTransform cv2_get c src w h = (c1, ms) ->
  M c1 <> None /\
  ms = (M c1, M_inv c1) /\
  (forall src' w' h',
      getPerspectiveTransform cv2_get c1 src' w' h' = (c1, ms)) /\
  (forall cv2_warp src' img inverse,
      warp_image cv2_get cv2_warp c1 src' img inverse
      = (c1, cv2_warp img (if inverse then snd ms else fst ms)
                      (img_width img, img_height img))) /\
  (M c = None ->
   let '(s0, s1, s2, s3) := src in
   let src_points := scale_points [s0; s1; s2; s3] w h in
   let dst_points :=
     scale_points [(fst s0, 1); (fst s0, 0); (fst s3, 0); (fst s3, 1)] w h in
   ms = (Some (cv2_get src_points dst_points),
         Some (cv2_get dst_points src_points))).
Proof.
  intros H.
  assert (Hc : M c1 <> None /\ ms = (M c1, M_inv c1)).
  { revert H. unfold getPerspectiveTransform.
    destruct (M c) as [m|] eqn:Em.
    - intros [= <- <-]. rewrite Em. split; [discriminate|reflexivity].
    - destruct src as [[[s0 s1] s2] s3]. intros [= <- <-].
      split; [discriminate|reflexivity]. }
  destruct Hc as [Hm Hms].
  assert (Hlater : forall src' w' h',
             getPerspectiveTransform cv2_get c1 src' w' h' = (c1, ms)).
  { intros src' w' h'. unfold getPerspectiveTransform.
    destruct (M c1) as [m|] eqn:Em1; [|congruence].
    rewrite Hms. reflexivity. }
  split; [exact Hm|]. split; [exact Hms|]. split; [exact Hlater|]. split.
  - intros cv2_warp src' img inverse. unfold warp_image.
    rewrite Hlater. destruct ms as [m mi]. reflexivity.
  - intros Em. revert H. unfold getPerspectiveTransform. rewrite Em.
    destruct src as [[[s0 s1] s2] s3]. now intros [= _ <-].
Qed.

Lemma perspective_cached_witness :
  getPerspectiveTransform symbolic_transform first_cache
                          sample_src_points 640 360
  = (first_cache, (M first_cache, M_inv first_cache)).
Proof.
  destruct (perspective_cached _ symbolic_transform (mkCache None None)
              first_cache sample_src_points 1280 720
              (M first_cache, M_inv first_cache) eq_refl)
    as [_ [_ [Hlater _]]].
  apply Hlater.
Defined.
